(** * Crime CSV API: schema mapping, record store and query engine

    A shallow embedding of [src/main.py].  The program reads one CSV file
    into a pandas DataFrame, guesses which raw column plays which role,
    derives eight normalised columns and answers listing, statistics and
    geographic queries over them.

    Conventions of the embedding:
    - a DataFrame is a list of column names and a list of rows of cells;
    - float64 values are idealised as rationals ([Q]); NaN, NaT and None are
      the [None] of an [option];
    - Python exceptions are the [Raise] of a [result];
    - the two module globals [_df] and [schema] are an explicit state that
      the handlers thread through a small state-and-exception monad;
    - the functions of pandas, datetime and re that the program calls, and
      whose text is not part of the program, are the fields of the class
      [Library]; every definition that calls one of them takes the library
      as an argument. *)

From Stdlib Require Import List ZArith QArith String Ascii Bool Lia.
From Stdlib Require Import Permutation Sorted DecimalString.
Import ListNotations.

Local Open Scope string_scope.
Local Open Scope Z_scope.

(** ** Cells, frames and timestamps *)

(** A cell of the DataFrame that [pd.read_csv] returns. *)
Inductive cell : Type :=
| CStr (s : string)
| CInt (n : Z)
| CFloat (x : Q)
| CNaN.

Record DataFrame : Type := {
  df_columns : list string;
  df_rows : list (list cell)
}.

(** A naive (time-zone free) timestamp. *)
Record datetime : Type := {
  year : Z; month : Z; day : Z;
  hour : Z; minute : Z; second : Z; microsecond : Z
}.

Definition dt_fields (d : datetime) : list Z :=
  [year d; month d; day d; hour d; minute d; second d; microsecond d].

(** Lexicographic order on field lists: the order of timestamps and of the
    day, month and year buckets. *)
Fixpoint lex_leb (a b : list Z) : bool :=
  match a, b with
  | [], _ => true
  | _ :: _, [] => false
  | x :: a', y :: b' => (x <? y) || ((x =? y) && lex_leb a' b')
  end.

Definition dt_leb (a b : datetime) : bool := lex_leb (dt_fields a) (dt_fields b).

(** ** Exceptions *)

Inductive exn : Type :=
| FileNotFoundError (msg : string)
| HTTPException (status_code : Z) (detail : string)
| TypeError (msg : string)
| re_error (pattern : string).

Inductive result (A : Type) : Type :=
| Ok (a : A)
| Raise (e : exn).

Arguments Ok {A} a.
Arguments Raise {A} e.

Definition rbind {A B : Type} (r : result A) (k : A -> result B) : result B :=
  match r with
  | Ok a => k a
  | Raise e => Raise e
  end.

Notation "x <-- r ;; k" := (rbind r (fun x => k))
  (at level 61, r at next level, right associativity).

(** ** The library functions the program calls *)

Class Library : Type := {
  (** [str(x)] of a float. *)
  str_float : Q -> string;
  (** [pd.to_numeric] of one string with [errors="coerce"]. *)
  to_numeric_str : string -> option Q;
  (** [datetime.strptime(s, fmt)]; [None] when it raises. *)
  strptime : string -> string -> option datetime;
  (** [pd.to_datetime(s, errors="coerce")] of one value; the outer [None]
      is an exception, the inner one is NaT. *)
  to_datetime_coerce : cell -> option (option datetime);
  (** [pd.to_datetime(series, errors="coerce", utc=False)]: given the whole
      column it raises ([None]) or gives the timestamp of each cell. *)
  to_datetime_series : list cell -> option (cell -> option datetime);
  (** [pd.to_datetime(s)] of a query-string bound; the outer [None] is an
      exception, the inner one is NaT. *)
  to_datetime : string -> option (option datetime);
  (** [Series.str.contains(pat)]: the pattern is compiled as a regular
      expression once ([None] when [re.compile] raises) and searched in
      every string. *)
  re_compile : string -> option (string -> bool)
}.

(** ** Small Python helpers *)

(** [str.lower] on ASCII text. *)
Definition lower_ascii (c : ascii) : ascii :=
  let n := nat_of_ascii c in
  if ((65 <=? n) && (n <=? 90))%nat then ascii_of_nat (n + 32) else c.

Fixpoint lower (s : string) : string :=
  match s with
  | EmptyString => EmptyString
  | String c s' => String (lower_ascii c) (lower s')
  end.

(** Truth value of an [Optional[str]]: [None] and the empty string are false. *)
Definition truthy (o : option string) : bool :=
  match o with
  | Some s => negb (s =? "")%string
  | None => false
  end.

Definition is_some {A : Type} (o : option A) : bool :=
  match o with Some _ => true | None => false end.

(** [pd.isna] on an optional value. *)
Definition isna {A : Type} (o : option A) : bool := negb (is_some o).

Definition cell_isna (c : cell) : bool :=
  match c with CNaN => true | _ => false end.

Definition str_of_nat (n : nat) : string := NilZero.string_of_uint (Nat.to_uint n).
Definition str_of_Z (n : Z) : string := NilZero.string_of_int (Z.to_int n).

(** [int(x)] of a float: truncation towards zero. *)
Definition py_int (x : Q) : Z := Z.quot (Qnum x) (Zpos (Qden x)).

Definition qmin (a b : Q) : Q := if Qle_bool a b then a else b.
Definition qmax (a b : Q) : Q := if Qle_bool a b then b else a.

(** [Series.min()] and [Series.max()] of a series without NaN. *)
Definition series_min (l : list Q) : Q :=
  match l with
  | [] => 0%Q
  | x :: t => fold_left qmin t x
  end.

Definition series_max (l : list Q) : Q :=
  match l with
  | [] => 0%Q
  | x :: t => fold_left qmax t x
  end.

(** [Series.dropna()]. *)
Definition dropna {A : Type} (col : list (option A)) : list A :=
  flat_map (fun o => match o with Some a => [a] | None => [] end) col.

(** [Series.isna().all()]. *)
Definition isna_all {A : Type} (col : list (option A)) : bool := forallb isna col.

(** A Python [dict] keeps its keys in insertion order; assigning to a key
    that is present replaces the value and keeps the key's position. *)
Section Dict.
Context {K V : Type} (eqb : K -> K -> bool).

Fixpoint dict_get (d : list (K * V)) (k : K) : option V :=
  match d with
  | [] => None
  | (k', v) :: d' => if eqb k' k then Some v else dict_get d' k
  end.

Fixpoint dict_set (d : list (K * V)) (k : K) (v : V) : list (K * V) :=
  match d with
  | [] => [(k, v)]
  | (k', v') :: d' =>
      if eqb k' k then (k', v) :: d' else (k', v') :: dict_set d' k v
  end.
End Dict.

(** A stable insertion sort, ascending for [leb]. *)
Section Sorting.
Context {A : Type} (leb : A -> A -> bool).

Fixpoint insert_sorted (x : A) (l : list A) : list A :=
  match l with
  | [] => [x]
  | y :: l' => if leb x y then x :: l else y :: insert_sorted x l'
  end.

Fixpoint isort (l : list A) : list A :=
  match l with
  | [] => []
  | x :: l' => insert_sorted x (isort l')
  end.

(** The sorting step of pandas' [nargsort]: ascending is a plain sort; for
    descending the input is reversed, sorted ascending and the result
    reversed again. *)
Definition argsort (ascending : bool) (l : list A) : list A :=
  if ascending then isort l else rev (isort (rev l)).
End Sorting.

(** ** Schema Mapper: [_auto_map_columns] *)

Record Schema : Type := {
  lat_col : option string;
  lng_col : option string;
  date_col : option string;
  cat_col : option string;
  desc_col : option string;
  id_col : option string;
  city_col : option string;
  state_col : option string
}.

(** [{c.lower(): c for c in df.columns}] *)
Definition columns_lower (columns : list string) : list (string * string) :=
  fold_left (fun d c => dict_set String.eqb d (lower c) c) columns [].

Fixpoint pick (cl : list (string * string)) (candidates : list string) : option string :=
  match candidates with
  | [] => None
  | name :: rest =>
      match dict_get String.eqb cl name with
      | Some c => Some c
      | None => pick cl rest
      end
  end.

Definition _auto_map_columns (columns : list string) : Schema :=
  let cl := columns_lower columns in
  {| lat_col := pick cl ["latitude"; "lat"; "y"];
     lng_col := pick cl ["longitude"; "lon"; "lng"; "x"];
     date_col := pick cl ["date"; "datetime"; "occurred_on"; "timestamp";
                          "reported_date"; "reported_at"];
     cat_col := pick cl ["category"; "offense"; "crime_type"; "offense_type";
                         "type"; "ucr"; "incident_type"];
     desc_col := pick cl ["description"; "details"; "summary"; "narrative";
                          "offense_description"; "incident_description"];
     id_col := pick cl ["id"; "incident_id"; "case_number"; "case_id";
                        "event_number"];
     city_col := pick cl ["city"; "municipality"; "jurisdiction"];
     state_col := pick cl ["state"; "province"; "region"] |}.

(** The eight roles and the candidate table of the specification (4.1). *)
Inductive role : Type :=
| Latitude | Longitude | Date | Category | Description | Identifier | City | State.

Definition candidates (r : role) : list string :=
  match r with
  | Latitude => ["latitude"; "lat"; "y"]
  | Longitude => ["longitude"; "lon"; "lng"; "x"]
  | Date => ["date"; "datetime"; "occurred_on"; "timestamp"; "reported_date";
             "reported_at"]
  | Category => ["category"; "offense"; "crime_type"; "offense_type"; "type";
                 "ucr"; "incident_type"]
  | Description => ["description"; "details"; "summary"; "narrative";
                    "offense_description"; "incident_description"]
  | Identifier => ["id"; "incident_id"; "case_number"; "case_id"; "event_number"]
  | City => ["city"; "municipality"; "jurisdiction"]
  | State => ["state"; "province"; "region"]
  end.

Definition schema_get (s : Schema) (r : role) : option string :=
  match r with
  | Latitude => lat_col s
  | Longitude => lng_col s
  | Date => date_col s
  | Category => cat_col s
  | Description => desc_col s
  | Identifier => id_col s
  | City => city_col s
  | State => state_col s
  end.

(** The column a lower-cased name stands for: the last one in the header
    that lower-cases to it. *)
Definition last_match (columns : list string) (k : string) : option string :=
  find (fun c => (lower c =? k)%string) (rev columns).

(** A candidate matches when some column name lower-cases to it. *)
Definition matches (columns : list string) (k : string) : Prop :=
  exists c, In c columns /\ lower c = k.

(** ** Date Normalizer: [_maybe_parse_date] *)

Definition str `{Library} (c : cell) : string :=
  match c with
  | CStr s => s
  | CInt n => str_of_Z n
  | CFloat x => str_float x
  | CNaN => "nan"
  end.

Definition fmts : list string :=
  ["%Y-%m-%d";
   "%Y-%m-%d %H:%M:%S";
   "%m/%d/%Y";
   "%m/%d/%Y %H:%M";
   "%m/%d/%y";
   "%Y/%m/%d";
   "%d-%m-%Y";
   "%Y-%m-%dT%H:%M:%S";
   "%Y-%m-%dT%H:%M:%S.%f"].

(** The [for f in fmts] loop: the first format that parses returns. *)
Fixpoint try_formats `{Library} (s : string) (fs : list string) : option datetime :=
  match fs with
  | [] => None
  | f :: fs' =>
      match strptime s f with
      | Some d => Some d
      | None => try_formats s fs'
      end
  end.

(** NaT and the final [None] are both the absent timestamp. *)
Definition _maybe_parse_date `{Library} (s : cell) : option datetime :=
  match try_formats (str s) fmts with
  | Some d => Some d
  | None =>
      match to_datetime_coerce s with
      | Some r => r
      | None => None
      end
  end.

(** The reference parse as section 4.2 of the specification words it: the
    nine patterns in their fixed order, then the permissive parser, and
    absent when that fails too or when the input is null. *)
Definition parse_4_2 `{Library} (raw : cell) : option datetime :=
  if cell_isna raw then None else
  let s := str raw in
  match strptime s "%Y-%m-%d" with Some d => Some d | None =>
  match strptime s "%Y-%m-%d %H:%M:%S" with Some d => Some d | None =>
  match strptime s "%m/%d/%Y" with Some d => Some d | None =>
  match strptime s "%m/%d/%Y %H:%M" with Some d => Some d | None =>
  match strptime s "%m/%d/%y" with Some d => Some d | None =>
  match strptime s "%Y/%m/%d" with Some d => Some d | None =>
  match strptime s "%d-%m-%Y" with Some d => Some d | None =>
  match strptime s "%Y-%m-%dT%H:%M:%S" with Some d => Some d | None =>
  match strptime s "%Y-%m-%dT%H:%M:%S.%f" with Some d => Some d | None =>
  match to_datetime_coerce raw with
  | Some (Some d) => Some d
  | _ => None
  end end end end end end end end end end.

(** ** Record Store: [_load_df] and [get_df] *)

(** One row of the eight derived columns. *)
Record Row : Type := {
  _id : string;
  _dt : option datetime;
  _cat : string;
  _desc : string;
  _lat : option Q;
  _lng : option Q;
  _city : string;
  _state : string
}.

(** The DataFrame kept in [_df]: the raw columns and rows, and the derived
    columns row by row. *)
Record Frame : Type := {
  frame_columns : list string;
  frame_raw : list (list cell);
  frame_rows : list Row
}.

Fixpoint index_of (name : string) (columns : list string) : option nat :=
  match columns with
  | [] => None
  | c :: rest =>
      if (c =? name)%string then Some O
      else option_map S (index_of name rest)
  end.

(** [df[name]]; a row that is shorter than the header has missing cells. *)
Definition getcol (df : DataFrame) (name : string) : list cell :=
  match index_of name (df_columns df) with
  | Some i => map (fun r => nth i r CNaN) (df_rows df)
  | None => []
  end.

(** [name in df.columns] *)
Definition has_column (df : DataFrame) (name : string) : bool :=
  existsb (fun c => (c =? name)%string) (df_columns df).

(** [schema[k] and schema[k] in df.columns] *)
Definition usable (df : DataFrame) (col : option string) : bool :=
  match col with
  | Some c => truthy col && has_column df c
  | None => false
  end.

Definition to_numeric1 `{Library} (c : cell) : option Q :=
  match c with
  | CStr s => to_numeric_str s
  | CInt n => Some (inject_Z n)
  | CFloat x => Some x
  | CNaN => None
  end.

(** The [_dt] column. *)
Definition dt_column `{Library} (df : DataFrame) (schema : Schema) : list (option datetime) :=
  match date_col schema with
  | Some c =>
      if truthy (date_col schema) && existsb (fun x => negb (cell_isna x)) (getcol df c)
      then match to_datetime_series (getcol df c) with
           | Some parse => map parse (getcol df c)
           | None => map _maybe_parse_date (getcol df c)
           end
      else repeat None (List.length (df_rows df))
  | None => repeat None (List.length (df_rows df))
  end.

(** The [_cat], [_desc], [_city] and [_state] columns. *)
Definition text_column `{Library} (df : DataFrame) (col : option string) : list string :=
  match col with
  | Some c =>
      if usable df col then map str (getcol df c)
      else repeat "" (List.length (df_rows df))
  | None => repeat "" (List.length (df_rows df))
  end.

(** The [_lat] and [_lng] columns. *)
Definition geo_column `{Library} (df : DataFrame) (col : option string) : list (option Q) :=
  match col with
  | Some c =>
      if usable df col then map to_numeric1 (getcol df c)
      else repeat None (List.length (df_rows df))
  | None => repeat None (List.length (df_rows df))
  end.

(** The [_id] column; without an id column it is the row index. *)
Definition id_column `{Library} (df : DataFrame) (col : option string) : list string :=
  match col with
  | Some c =>
      if usable df col then map str (getcol df c)
      else map str_of_nat (seq 0 (List.length (df_rows df)))
  | None => map str_of_nat (seq 0 (List.length (df_rows df)))
  end.

(** Assigning [df[name] = ...] adds the column unless the name is taken. *)
Definition add_column (columns : list string) (name : string) : list string :=
  if existsb (fun c => (c =? name)%string) columns then columns
  else columns ++ [name].

Definition derived_names : list string :=
  ["_dt"; "_cat"; "_desc"; "_lat"; "_lng"; "_id"; "_city"; "_state"].

(** The body of [_load_df] after [pd.read_csv] and [_auto_map_columns]. *)
Definition normalize `{Library} (df : DataFrame) (schema : Schema) : Frame :=
  let dt := dt_column df schema in
  let cat := text_column df (cat_col schema) in
  let desc := text_column df (desc_col schema) in
  let lat := geo_column df (lat_col schema) in
  let lng := geo_column df (lng_col schema) in
  let ids := id_column df (id_col schema) in
  let city := text_column df (city_col schema) in
  let state := text_column df (state_col schema) in
  {| frame_columns := fold_left add_column derived_names (df_columns df);
     frame_raw := df_rows df;
     frame_rows :=
       map (fun i =>
              {| _id := nth i ids "";
                 _dt := nth i dt None;
                 _cat := nth i cat "";
                 _desc := nth i desc "";
                 _lat := nth i lat None;
                 _lng := nth i lng None;
                 _city := nth i city "";
                 _state := nth i state "" |})
           (seq 0 (List.length (df_rows df))) |}.

(** The data source: the configured path and, when a file is there, the
    DataFrame [pd.read_csv] makes of it. *)
Record World : Type := {
  CSV_PATH : string;
  csv_file : option DataFrame
}.

(** The module globals. *)
Record Globals : Type := {
  _df : option Frame;
  schema : Schema
}.

Definition no_schema : Schema :=
  {| lat_col := None; lng_col := None; date_col := None; cat_col := None;
     desc_col := None; id_col := None; city_col := None; state_col := None |}.

(** The globals when the module has just been imported. *)
Definition initial : Globals := {| _df := None; schema := no_schema |}.

(** Handlers run in a state-and-exception monad over the globals. *)
Definition M (A : Type) : Type := Globals -> result A * Globals.

Definition ret {A : Type} (a : A) : M A := fun g => (Ok a, g).

Definition raise {A : Type} (e : exn) : M A := fun g => (Raise e, g).

Definition bind {A B : Type} (m : M A) (k : A -> M B) : M B :=
  fun g =>
    match m g with
    | (Ok a, g') => k a g'
    | (Raise e, g') => (Raise e, g')
    end.

Notation "x <- m ; k" := (bind m (fun x => k))
  (at level 61, m at next level, right associativity).

(** [try: m except FileNotFoundError as e: raise HTTPException(404, str(e))] *)
Definition not_found_as_404 {A : Type} (m : M A) : M A :=
  fun g =>
    match m g with
    | (Raise (FileNotFoundError msg), g') => (Raise (HTTPException 404 msg), g')
    | other => other
    end.

Definition lift {A : Type} (r : result A) : M A := fun g => (r, g).

Definition _load_df `{Library} (w : World) : M unit :=
  fun g =>
    match csv_file w with
    | None => (Raise (FileNotFoundError ("CSV not found at " ++ CSV_PATH w)), g)
    | Some df =>
        let schema' := _auto_map_columns (df_columns df) in
        (Ok tt, {| _df := Some (normalize df schema'); schema := schema' |})
    end.

(** [get_df] returns the global [_df]; it is never [None] after a load that
    returned, where Python would fail at the first use of the value. *)
Definition get_df `{Library} (w : World) : M Frame :=
  fun g =>
    match _df g with
    | None =>
        (_ <- _load_df w ;
         fun g' =>
           match _df g' with
           | Some f => (Ok f, g')
           | None => (Raise (TypeError "NoneType"), g')
           end) g
    | Some f => (Ok f, g)
    end.

(** ** Query Engine *)

(** Boolean Series and the selection [df[filt]]. *)
Definition mask_and (a b : list bool) : list bool :=
  map (fun p : bool * bool => fst p && snd p) (combine a b).

Definition mask_or (a b : list bool) : list bool :=
  map (fun p : bool * bool => fst p || snd p) (combine a b).

Definition select {A : Type} (filt : list bool) (rows : list A) : list A :=
  flat_map (fun p : A * bool => if snd p then [fst p] else []) (combine rows filt).

(** [if s:] on an optional string, with the string at hand in the branch. *)
Definition if_str {A : Type} (o : option string) (then_ : string -> A) (else_ : A) : A :=
  match o with
  | Some s => if (s =? "")%string then else_ else then_ s
  | None => else_
  end.

Definition if_some {A B : Type} (o : option A) (then_ : A -> B) (else_ : B) : B :=
  match o with
  | Some a => then_ a
  | None => else_
  end.

(** [df["_dt"] >= sd] and [df["_dt"] <= ed]: a comparison with NaT on
    either side is false. *)
Definition dt_ge (bound : option datetime) (v : option datetime) : bool :=
  match v, bound with
  | Some x, Some b => dt_leb b x
  | _, _ => false
  end.

Definition dt_le (bound : option datetime) (v : option datetime) : bool :=
  match v, bound with
  | Some x, Some b => dt_leb x b
  | _, _ => false
  end.

(** [df["_lat"] >= min_lat] and the like: a missing value compares false. *)
Definition q_ge (bound : Q) (v : option Q) : bool :=
  match v with
  | Some x => Qle_bool bound x
  | None => false
  end.

Definition q_le (bound : Q) (v : option Q) : bool :=
  match v with
  | Some x => Qle_bool x bound
  | None => false
  end.

(** The date-range part of the filter, shared by [incidents] and [stats]. *)
Definition date_filter `{Library} (df : list Row) (start_date end_date : option string)
    (filt : list bool) : result (list bool) :=
  filt <-- if_str start_date
             (fun s =>
                match to_datetime s with
                | Some sd => Ok (mask_and filt (map (fun r => dt_ge sd (_dt r)) df))
                | None => Raise (HTTPException 400 "Invalid start_date")
                end)
             (Ok filt) ;;
  if_str end_date
    (fun s =>
       match to_datetime s with
       | Some ed => Ok (mask_and filt (map (fun r => dt_le ed (_dt r)) df))
       | None => Raise (HTTPException 400 "Invalid end_date")
       end)
    (Ok filt).

Record IncidentParams : Type := {
  q : option string;
  category : option string;
  city : option string;
  state : option string;
  start_date : option string;
  end_date : option string;
  min_lat : option Q;
  max_lat : option Q;
  min_lng : option Q;
  max_lng : option Q;
  limit : Z;
  offset : Z;
  sort : string
}.

(** What FastAPI lets through to [heatmap]: [bins: int = Query(50, ge=5, le=400)]. *)
Definition valid_bins (bins : Z) : Prop := 5 <= bins <= 400.

(** The Series [filt] of [incidents] just before [df[filt]]. *)
Definition incidents_filt `{Library} (df : list Row) (p : IncidentParams) : result (list bool) :=
  let filt := repeat true (List.length df) in
  filt <-- if_str (q p)
             (fun s =>
                let q_lower := lower s in
                match re_compile q_lower with
                | Some search =>
                    Ok (mask_and filt
                          (mask_or (map (fun r => search (lower (_desc r))) df)
                                   (map (fun r => search (lower (_cat r))) df)))
                | None => Raise (re_error q_lower)
                end)
             (Ok filt) ;;
  let filt := if_str (category p)
                (fun s => mask_and filt (map (fun r => (lower (_cat r) =? lower s)%string) df))
                filt in
  let filt := if_str (city p)
                (fun s => mask_and filt (map (fun r => (lower (_city r) =? lower s)%string) df))
                filt in
  let filt := if_str (state p)
                (fun s => mask_and filt (map (fun r => (lower (_state r) =? lower s)%string) df))
                filt in
  filt <-- date_filter df (start_date p) (end_date p) filt ;;
  let filt := if_some (min_lat p) (fun b => mask_and filt (map (fun r => q_ge b (_lat r)) df)) filt in
  let filt := if_some (max_lat p) (fun b => mask_and filt (map (fun r => q_le b (_lat r)) df)) filt in
  let filt := if_some (min_lng p) (fun b => mask_and filt (map (fun r => q_ge b (_lng r)) df)) filt in
  let filt := if_some (max_lng p) (fun b => mask_and filt (map (fun r => q_le b (_lng r)) df)) filt in
  Ok filt.

Definition has_dt (r : Row) : bool := is_some (_dt r).

(** The order of the non-missing [_dt] keys. *)
Definition dt_key_leb (a b : Row) : bool :=
  match _dt a, _dt b with
  | Some x, Some y => dt_leb x y
  | _, _ => true
  end.

(** [res.sort_values(by="_dt", ascending=..., na_position="last")]: the rows
    with a timestamp are ordered by [nargsort], the others follow in their
    original order.  numpy's default sort is not stable on long arrays; the
    insertion sort here is what it does on short ones. *)
Definition sort_values_dt (ascending : bool) (res : list Row) : list Row :=
  argsort dt_key_leb ascending (filter has_dt res)
  ++ filter (fun r => negb (has_dt r)) res.

(** One entry of the payload; [date] stands for its ISO-8601 rendering. *)
Record Item : Type := {
  item_id : string;
  item_date : option datetime;
  item_category : option string;
  item_description : option string;
  item_lat : option Q;
  item_lng : option Q;
  item_city : option string;
  item_state : option string
}.

Definition project (r : Row) : Item :=
  {| item_id := _id r;
     item_date := _dt r;
     item_category := Some (_cat r);
     item_description := Some (_desc r);
     item_lat := _lat r;
     item_lng := _lng r;
     item_city := Some (_city r);
     item_state := Some (_state r) |}.

Record Page : Type := {
  total : Z;
  page_limit : Z;
  page_offset : Z;
  items : list Item
}.

(** [res.iloc[offset: offset + limit]] for the values FastAPI lets through,
    [limit] in [1, 1000] and [offset >= 0]. *)
Definition iloc {A : Type} (res : list A) (offset limit : Z) : list A :=
  firstn (Z.to_nat limit) (skipn (Z.to_nat offset) res).

(** The body of [incidents] once [get_df] has returned. *)
Definition incidents_body `{Library} (df : list Row) (p : IncidentParams) : result Page :=
  filt <-- incidents_filt df p ;;
  let res := select filt df in
  let res :=
    if (sort p =? "date")%string then sort_values_dt true res
    else if (sort p =? "-date")%string then sort_values_dt false res
    else res in
  let total := Z.of_nat (List.length res) in
  let res := iloc res (offset p) (limit p) in
  Ok {| total := total; page_limit := limit p; page_offset := offset p;
        items := map project res |}.

(** *** Grouped counts *)

(** Counting into a dict: [d[k] = d.get(k, 0) + 1]. *)
Definition dict_incr {K : Type} (eqb : K -> K -> bool) (d : list (K * nat)) (k : K)
    : list (K * nat) :=
  dict_set eqb d k (match dict_get eqb d k with Some n => n | None => O end + 1)%nat.

(** The groups and their sizes, in order of first appearance. *)
Definition value_counts {K : Type} (eqb : K -> K -> bool) (keys : list K) : list (K * nat) :=
  fold_left (dict_incr eqb) keys [].

Fixpoint zlist_eqb (a b : list Z) : bool :=
  match a, b with
  | [], [] => true
  | x :: a', y :: b' => (x =? y) && zlist_eqb a' b'
  | _, _ => false
  end.

Inductive key : Type :=
| KStr (s : string)
| KInt (n : Z)
| KDay (y m d : Z)
| KMonth (y m : Z).

(** [groupby(col, dropna=False).size()] orders the groups by key;
    [sort_values("count", ascending=False)] then orders them by size. *)
Definition group_sizes (col : list string) : list (key * nat) :=
  map (fun g => (KStr (fst g), snd g))
      (argsort (fun a b : string * nat => (snd a <=? snd b)%nat) false
         (isort (fun a b : string * nat => String.leb (fst a) (fst b))
            (value_counts String.eqb col))).

(** [value_counts().sort_index()] of a bucket of the timestamps. *)
Definition bucket_counts (bucket : datetime -> list Z) (mk : list Z -> key)
    (dt : list datetime) : list (key * nat) :=
  map (fun g => (mk (fst g), snd g))
      (isort (fun a b : list Z * nat => lex_leb (fst a) (fst b))
         (value_counts zlist_eqb (map bucket dt))).

Definition day_key (l : list Z) : key := KDay (nth 0 l 0) (nth 1 l 0) (nth 2 l 0).
Definition month_key (l : list Z) : key := KMonth (nth 0 l 0) (nth 1 l 0).
Definition year_key (l : list Z) : key := KInt (nth 0 l 0).

Record Stats : Type := {
  stats_by : string;
  data : list (key * nat)
}.

(** The body of [stats] once [get_df] has returned. *)
Definition stats_body `{Library} (df : list Row) (by_ : string)
    (start_date end_date : option string) : result Stats :=
  filt <-- date_filter df start_date end_date (repeat true (List.length df)) ;;
  let res := select filt df in
  if (by_ =? "category")%string then
    Ok {| stats_by := by_; data := group_sizes (map _cat res) |}
  else if (by_ =? "day")%string || (by_ =? "month")%string || (by_ =? "year")%string then
    if isna_all (map _dt res) then Ok {| stats_by := by_; data := [] |}
    else
      let dt := dropna (map _dt res) in
      if (by_ =? "day")%string then
        Ok {| stats_by := by_;
              data := bucket_counts (fun d => [year d; month d; day d]) day_key dt |}
      else if (by_ =? "month")%string then
        Ok {| stats_by := by_;
              data := bucket_counts (fun d => [year d; month d]) month_key dt |}
      else
        Ok {| stats_by := by_;
              data := bucket_counts (fun d => [year d]) year_key dt |}
  else if (by_ =? "city")%string then
    Ok {| stats_by := by_; data := group_sizes (map _city res) |}
  else if (by_ =? "state")%string then
    Ok {| stats_by := by_; data := group_sizes (map _state res) |}
  else Raise (HTTPException 400 "Invalid 'by' parameter").

(** *** Geographic views *)

Record Feature : Type := {
  coordinates : Q * Q;
  prop_id : string;
  prop_date : option datetime;
  prop_category : string;
  prop_description : string;
  prop_city : string;
  prop_state : string
}.

Definition no_geo : exn := HTTPException 400 "CSV has no latitude/longitude columns".

(** The body of [geojson] once [get_df] has returned. *)
Definition geojson_body (df : list Row) : result (list Feature) :=
  if isna_all (map _lat df) || isna_all (map _lng df) then Raise no_geo
  else
    Ok (flat_map
          (fun r =>
             match _lat r, _lng r with
             | Some la, Some lo =>
                 [{| coordinates := (lo, la);
                     prop_id := _id r;
                     prop_date := _dt r;
                     prop_category := _cat r;
                     prop_description := _desc r;
                     prop_city := _city r;
                     prop_state := _state r |}]
             | _, _ => []
             end)
          df).

Record HeatCell : Type := {
  cell_lat : Q;
  cell_lng : Q;
  count : nat
}.

Record Heatmap : Type := {
  heat_bins : Z;
  bounds : option (Q * Q * Q * Q);
  grid : list HeatCell
}.

Definition zz_eqb (a b : Z * Z) : bool := (fst a =? fst b) && (snd a =? snd b).

(** [min(int((v - v_min) / step), bins - 1)] *)
Definition cell_index (v v_min step : Q) (bins : Z) : Z :=
  Z.min (py_int ((v - v_min) / step)) (bins - 1).

(** The loop [for la, lo in zip(lat, lng)] that fills the dict [grid]. *)
Definition fill_grid (lat lng : list Q) (lat_min lng_min lat_step lng_step : Q)
    (bins : Z) : list (Z * Z * nat) :=
  fold_left
    (fun grid p =>
       let i := cell_index (fst p) lat_min lat_step bins in
       let j := cell_index (snd p) lng_min lng_step bins in
       dict_incr zz_eqb grid (i, j))
    (combine lat lng) [].

(** The body of [heatmap] once [get_df] has returned.  On the last branch
    the two ranges are not degenerate and [bins] is at least 5, so neither
    step is zero and the divisions are the ones Python performs. *)
Definition heatmap_body (df : list Row) (bins : Z) : result Heatmap :=
  if isna_all (map _lat df) || isna_all (map _lng df) then Raise no_geo
  else
    let lat := dropna (map _lat df) in
    let lng := dropna (map _lng df) in
    match lat, lng with
    | [], _ | _, [] => Ok {| heat_bins := bins; bounds := None; grid := [] |}
    | _, _ =>
        let lat_min := series_min lat in
        let lat_max := series_max lat in
        let lng_min := series_min lng in
        let lng_max := series_max lng in
        if Qeq_bool lat_min lat_max || Qeq_bool lng_min lng_max then
          Ok {| heat_bins := bins; bounds := None;
                grid := [{| cell_lat := lat_min; cell_lng := lng_min;
                            count := List.length lat |}] |}
        else
          let lat_step := (lat_max - lat_min) / inject_Z bins in
          let lng_step := (lng_max - lng_min) / inject_Z bins in
          let grid := fill_grid lat lng lat_min lng_min lat_step lng_step bins in
          Ok {| heat_bins := bins;
                bounds := Some (lat_min, lat_max, lng_min, lng_max);
                grid :=
                  map (fun g =>
                         let '(i, j, n) := g in
                         {| cell_lat := lat_min + (inject_Z i + (1 # 2)) * lat_step;
                            cell_lng := lng_min + (inject_Z j + (1 # 2)) * lng_step;
                            count := n |})
                      grid |}
    end%Q.

(** *** The handlers *)

Record Columns : Type := {
  columns_list : list string;
  mapped : Schema;
  row_count : Z
}.

Definition health : M string := ret "ok".

Definition columns `{Library} (w : World) : M Columns :=
  not_found_as_404
    (df <- get_df w ;
     fun g =>
       (Ok {| columns_list := frame_columns df; mapped := schema g;
              row_count := Z.of_nat (List.length (frame_raw df)) |}, g)).

Definition incidents `{Library} (w : World) (p : IncidentParams) : M Page :=
  df <- not_found_as_404 (get_df w) ;
  lift (incidents_body (frame_rows df) p).

Definition stats `{Library} (w : World) (by_ : string)
    (start_date end_date : option string) : M Stats :=
  df <- not_found_as_404 (get_df w) ;
  lift (stats_body (frame_rows df) by_ start_date end_date).

Definition geojson `{Library} (w : World) : M (list Feature) :=
  df <- not_found_as_404 (get_df w) ;
  lift (geojson_body (frame_rows df)).

Definition heatmap `{Library} (w : World) (bins : Z) : M Heatmap :=
  df <- not_found_as_404 (get_df w) ;
  lift (heatmap_body (frame_rows df) bins).

(** ** A sample library

    A table of what the real functions return on the strings used in the
    examples of this file, for running the model on concrete inputs: the
    three dates 2021-03-01, 2021-03-02 and 03/02/2021, the ambiguous
    01-02-2020, search patterns made of letters, digits and spaces, and
    floats with an integer value.  Outside these inputs it is not meant to
    describe the libraries. *)

Definition mkdate (y m d : Z) : datetime :=
  {| year := y; month := m; day := d; hour := 0; minute := 0; second := 0;
     microsecond := 0 |}.

(** Substring search: how a pattern without metacharacters matches. *)
Definition contains (pat s : string) : bool :=
  match String.index 0 pat s with
  | Some _ => true
  | None => false
  end.

Definition plain_char (c : ascii) : bool :=
  let n := nat_of_ascii c in
  ((48 <=? n) && (n <=? 57) || (65 <=? n) && (n <=? 90) || (97 <=? n) && (n <=? 122)
   || (n =? 32))%nat.

Fixpoint plain (s : string) : bool :=
  match s with
  | EmptyString => true
  | String c s' => plain_char c && plain s'
  end.

Definition sample_strptime (s f : string) : option datetime :=
  if ((s =? "2021-03-01") && (f =? "%Y-%m-%d"))%string then Some (mkdate 2021 3 1)
  else if ((s =? "03/02/2021") && (f =? "%m/%d/%Y"))%string then Some (mkdate 2021 3 2)
  else if ((s =? "01-02-2020") && (f =? "%d-%m-%Y"))%string then Some (mkdate 2020 2 1)
  else None.

(** The permissive parser reads [01-02-2020] month first. *)
Definition sample_parse (s : string) : option datetime :=
  if (s =? "2021-03-01")%string then Some (mkdate 2021 3 1)
  else if (s =? "2021-03-02")%string then Some (mkdate 2021 3 2)
  else if (s =? "03/02/2021")%string then Some (mkdate 2021 3 2)
  else if (s =? "01-02-2020")%string then Some (mkdate 2020 1 2)
  else None.

Definition sample_coerce (c : cell) : option (option datetime) :=
  match c with
  | CStr s => Some (sample_parse s)
  | _ => Some None
  end.

(** The bulk parse settles on the format of the first value that is not
    missing and turns every cell that does not follow it into NaT. *)
Definition sample_format (s : string) : string :=
  if (s =? "2021-03-01")%string || (s =? "2021-03-02")%string then "%Y-%m-%d"
  else if (s =? "03/02/2021")%string then "%m/%d/%Y"
  else if (s =? "01-02-2020")%string then "%m-%d-%Y"
  else "".

Definition sample_series (col : list cell) : option (cell -> option datetime) :=
  match filter (fun c => negb (cell_isna c)) col with
  | CStr s0 :: _ =>
      Some (fun c =>
              match c with
              | CStr s =>
                  if (sample_format s =? sample_format s0)%string
                  then sample_parse s else None
              | _ => None
              end)
  | _ => Some (fun _ => None)
  end.

Definition sample_bound (s : string) : option (option datetime) :=
  match sample_parse s with
  | Some d => Some (Some d)
  | None => None
  end.

Definition sample_str_float (x : Q) : string :=
  (str_of_Z (Qnum x / Zpos (Qden x)) ++ ".0")%string.

Definition sample : Library :=
  {| str_float := sample_str_float;
     to_numeric_str := fun _ => None;
     strptime := sample_strptime;
     to_datetime_coerce := sample_coerce;
     to_datetime_series := sample_series;
     to_datetime := sample_bound;
     re_compile := fun pat => if plain pat then Some (contains pat) else None |}.


(** ** Vocabulary of the properties *)

(** A record with both coordinates present. *)
Definition both (r : Row) : bool := is_some (_lat r) && is_some (_lng r).

Definition sum_counts {K : Type} (d : list (K * nat)) : nat := list_sum (map snd d).

Definition heat_total (h : Heatmap) : nat := list_sum (map count (grid h)).

(** The rows of the store that a load of [df] builds. *)
Definition store `{Library} (df : DataFrame) : list Row :=
  frame_rows (normalize df (_auto_map_columns (df_columns df))).


(** ** Sample data *)

Definition at_path (df : option DataFrame) : World :=
  {| CSV_PATH := "data/crime.csv"; csv_file := df |}.

(** One record with a latitude only, one with a longitude only and one
    with both. *)
Definition geo_ragged : DataFrame :=
  {| df_columns := ["lat"; "lng"];
     df_rows := [[CFloat 0; CNaN]; [CNaN; CFloat 0]; [CFloat 1; CFloat 1]] |}.

(** Two records on the same latitude, the first without a longitude. *)
Definition geo_same_lat : DataFrame :=
  {| df_columns := ["lat"; "lng"];
     df_rows := [[CFloat 1; CNaN]; [CFloat 1; CFloat 5]] |}.




(** A record with a longitude but no latitude between two records with
    both coordinates. *)
Definition geo_one_both : DataFrame :=
  {| df_columns := ["lat"; "lng"];
     df_rows := [[CFloat 1; CNaN]; [CFloat 2; CFloat 5]; [CNaN; CFloat 6]] |}.

(** *** Filters, record by record *)

(** The date-range test of one record. *)
Definition in_range `{Library} (start_date end_date : option string) (r : Row) : bool :=
  if_str start_date
    (fun s => match to_datetime s with
              | Some sd => dt_ge sd (_dt r)
              | None => false
              end) true
  && if_str end_date
       (fun s => match to_datetime s with
                 | Some ed => dt_le ed (_dt r)
                 | None => false
                 end) true.

(** The conjunction of the active filters of [incidents] on one record. *)
Definition row_matches `{Library} (p : IncidentParams) (r : Row) : bool :=
  if_str (q p)
    (fun s => match re_compile (lower s) with
              | Some search => search (lower (_desc r)) || search (lower (_cat r))
              | None => false
              end) true
  && if_str (category p) (fun s => (lower (_cat r) =? lower s)%string) true
  && if_str (city p) (fun s => (lower (_city r) =? lower s)%string) true
  && if_str (state p) (fun s => (lower (_state r) =? lower s)%string) true
  && in_range (start_date p) (end_date p) r
  && if_some (min_lat p) (fun b => q_ge b (_lat r)) true
  && if_some (max_lat p) (fun b => q_le b (_lat r)) true
  && if_some (min_lng p) (fun b => q_ge b (_lng r)) true
  && if_some (max_lng p) (fun b => q_le b (_lng r)) true.

(** The date bounds can be read. *)
Definition dates_parse `{Library} (start_date end_date : option string) : bool :=
  if_str start_date (fun s => is_some (to_datetime s)) true
  && if_str end_date (fun s => is_some (to_datetime s)) true.

(** The search pattern compiles and the date bounds can be read. *)
Definition filters_parse `{Library} (p : IncidentParams) : bool :=
  if_str (q p) (fun s => is_some (re_compile (lower s))) true
  && dates_parse (start_date p) (end_date p).


Definition no_filters : IncidentParams :=
  {| q := None; category := None; city := None; state := None;
     start_date := None; end_date := None;
     min_lat := None; max_lat := None; min_lng := None; max_lng := None;
     limit := 100; offset := 0; sort := "-date" |}.

(** *** Order of the sort keys *)

(** The order of the [_dt] keys that [sort_values] compares. *)
Definition key_le (a b : option datetime) : Prop :=
  match a, b with
  | Some x, Some y => dt_leb x y = true
  | _, _ => True
  end.

(** The sort as the specification words it: descending is ascending
    reversed, among the records that have a timestamp. *)
Definition spec_sort_reversed (res : list Row) : Prop :=
  filter has_dt (sort_values_dt false res)
  = rev (filter has_dt (sort_values_dt true res)).

(** Two incidents reported on the same day. *)
Definition same_day : DataFrame :=
  {| df_columns := ["date"; "offense"];
     df_rows := [[CStr "2021-03-01"; CStr "THEFT"];
                 [CStr "2021-03-01"; CStr "ASSAULT"]] |}.

(** Three incidents on different days and one without a date. *)
Definition three_days : DataFrame :=
  {| df_columns := ["date"; "offense"];
     df_rows := [[CStr "2021-03-02"; CStr "THEFT"];
                 [CNaN; CStr "FRAUD"];
                 [CStr "2021-03-01"; CStr "ASSAULT"]] |}.

(** The sort step of [incidents]; any other value of [sort] leaves the
    filtered records in row order. *)
Definition sort_by (s : string) (res : list Row) : list Row :=
  if (s =? "date")%string then sort_values_dt true res
  else if (s =? "-date")%string then sort_values_dt false res
  else res.

(** *** Text roles *)

(** The cell of a raw row in the column [c] of the frame. *)
Definition row_cell (df : DataFrame) (c : string) (raw : list cell) : cell :=
  match index_of c (df_columns df) with
  | Some j => nth j raw CNaN
  | None => CNaN
  end.

Inductive text_role : Type := TCategory | TDescription | TCity | TState.

Definition role_of (t : text_role) : role :=
  match t with
  | TCategory => Category
  | TDescription => Description
  | TCity => City
  | TState => State
  end.

Definition text_field (t : text_role) (r : Row) : string :=
  match t with
  | TCategory => _cat r
  | TDescription => _desc r
  | TCity => _city r
  | TState => _state r
  end.

(** The request that filters on one exact value of a role; there is no
    such filter on the description. *)
Definition exact_filter (t : text_role) (v : string) : IncidentParams :=
  match t with
  | TCategory =>
      {| q := None; category := Some v; city := None; state := None;
         start_date := None; end_date := None;
         min_lat := None; max_lat := None; min_lng := None; max_lng := None;
         limit := 100; offset := 0; sort := "-date" |}
  | TCity =>
      {| q := None; category := None; city := Some v; state := None;
         start_date := None; end_date := None;
         min_lat := None; max_lat := None; min_lng := None; max_lng := None;
         limit := 100; offset := 0; sort := "-date" |}
  | TState =>
      {| q := None; category := None; city := None; state := Some v;
         start_date := None; end_date := None;
         min_lat := None; max_lat := None; min_lng := None; max_lng := None;
         limit := 100; offset := 0; sort := "-date" |}
  | TDescription => no_filters
  end.

(** The request with a text search only. *)
Definition text_filter (v : string) : IncidentParams :=
  {| q := Some v; category := None; city := None; state := None;
     start_date := None; end_date := None;
     min_lat := None; max_lat := None; min_lng := None; max_lng := None;
     limit := 100; offset := 0; sort := "-date" |}.

(** The [by] value that groups on a role; the description has none. *)
Definition by_name (t : text_role) : string :=
  match t with
  | TCategory => "category"
  | TDescription => "description"
  | TCity => "city"
  | TState => "state"
  end.

(** [pd.read_csv] reads an empty field as NaN: no cell is the empty string. *)
Definition no_empty_cells (df : DataFrame) : Prop :=
  Forall (Forall (fun c => c <> CStr "")) (df_rows df).

(** How often a key occurs. *)
Definition count_key {K : Type} (eqb : K -> K -> bool) (k : K) (keys : list K) : nat :=
  List.length (filter (fun x => eqb x k) keys).



(** The stored timestamps as the specification words them: every row
    holds the reference parse of its raw date value. *)
Definition spec_dt_is_reference_parse `{Library} (df : DataFrame) : Prop :=
  forall c i raw r,
    date_col (_auto_map_columns (df_columns df)) = Some c ->
    nth_error (df_rows df) i = Some raw ->
    nth_error (store df) i = Some r ->
    _dt r = parse_4_2 (row_cell df c raw).

(** The scenario of the specification, with one more incident whose
    offense and city were left empty. *)
Definition scenario : DataFrame :=
  {| df_columns := ["Latitude"; "Longitude"; "Date"; "Offense"; "City"];
     df_rows :=
       [[CFloat (3405 # 100); CFloat (-11825 # 100); CStr "2021-03-01"; CStr "THEFT";
         CStr "Los Angeles"];
        [CFloat (3406 # 100); CFloat (-11826 # 100); CStr "03/02/2021"; CStr "ASSAULT";
         CStr "Los Angeles"];
        [CFloat (3407 # 100); CFloat (-11827 # 100); CStr "2021-03-02"; CNaN; CNaN]] |}.

(** A day-first date. *)
Definition day_first : DataFrame :=
  {| df_columns := ["id"; "date"];
     df_rows := [[CInt 7; CStr "01-02-2020"]] |}.


From Stdlib Require DecimalNat DecimalFacts.

(** ** Vocabulary of the further properties *)

(** The state after a load of [df]. *)
Definition loaded `{Library} (df : DataFrame) : Globals :=
  {| _df := Some (normalize df (_auto_map_columns (df_columns df)));
     schema := _auto_map_columns (df_columns df) |}.

(** A header without coordinates. *)
Definition no_geo_columns : DataFrame :=
  {| df_columns := ["date"; "offense"];
     df_rows := [[CStr "2021-03-01"; CStr "THEFT"]] |}.

(** The order of the dates on a page sorted by "date": ascending, and a
    missing date after every date. *)
Definition date_before (a b : option datetime) : Prop :=
  match a, b with
  | Some x, Some y => dt_leb x y = true
  | None, Some _ => False
  | _, None => True
  end.

(** The order on a page sorted by "-date": descending, missing dates last. *)
Definition date_after (a b : option datetime) : Prop :=
  match a, b with
  | Some x, Some y => dt_leb y x = true
  | None, Some _ => False
  | _, None => True
  end.


(** * Properties *)

(** ** General facts on lists and dicts *)

Lemma find_app_split {A : Type} (p : A -> bool) (l1 l2 : list A) :
  find p (l1 ++ l2) = match find p l1 with Some x => Some x | None => find p l2 end.
Proof.
  induction l1 as [|a l1 IH]; simpl; [reflexivity|].
  destruct (p a); [reflexivity | exact IH].
Qed.

Lemma NoDup_map_injective {A B : Type} (f : A -> B) (l : list A) :
  NoDup (map f l) -> forall x y, In x l -> In y l -> f x = f y -> x = y.
Proof.
  induction l as [|a l IH]; simpl; intros Hnd x y Hx Hy Hxy; [contradiction|].
  inversion Hnd as [|? ? Hnotin Hnd']; subst.
  destruct Hx as [Hx|Hx], Hy as [Hy|Hy]; subst.
  - reflexivity.
  - exfalso. apply Hnotin. rewrite Hxy. now apply in_map.
  - exfalso. apply Hnotin. rewrite <- Hxy. now apply in_map.
  - now apply IH.
Qed.

Section DictFacts.
Context {K V : Type} (eqb : K -> K -> bool).
Hypothesis eqb_eq : forall a b, eqb a b = true <-> a = b.

Lemma eqb_refl_true (a : K) : eqb a a = true.
Proof. now apply eqb_eq. Qed.

Lemma eqb_neq_false (a b : K) : a <> b -> eqb a b = false.
Proof.
  intros Hne. destruct (eqb a b) eqn:E; [|reflexivity].
  apply eqb_eq in E. contradiction.
Qed.

Lemma dict_get_set (d : list (K * V)) (k k' : K) (v : V) :
  dict_get eqb (dict_set eqb d k v) k' =
  if eqb k k' then Some v else dict_get eqb d k'.
Proof.
  induction d as [|[k0 v0] d IH]; simpl.
  - reflexivity.
  - destruct (eqb k0 k) eqn:E0; simpl.
    + apply eqb_eq in E0. subst k0.
      destruct (eqb k k'); reflexivity.
    + destruct (eqb k0 k') eqn:E1.
      * destruct (eqb k k') eqn:E2; [|reflexivity].
        apply eqb_eq in E1, E2. subst k0 k'.
        rewrite eqb_refl_true in E0. discriminate.
      * exact IH.
Qed.
End DictFacts.

(** ** Schema Mapper *)

Lemma string_eqb_iff (a b : string) : (a =? b)%string = true <-> a = b.
Proof. apply String.eqb_eq. Qed.

Lemma columns_lower_fold (columns : list string) (d : list (string * string)) (k : string) :
  dict_get String.eqb
    (fold_left (fun d c => dict_set String.eqb d (lower c) c) columns d) k
  = match last_match columns k with
    | Some c => Some c
    | None => dict_get String.eqb d k
    end.
Proof.
  unfold last_match. revert d.
  induction columns as [|c t IH]; intros d; simpl; [reflexivity|].
  rewrite IH, find_app_split.
  destruct (find _ (rev t)); [reflexivity|].
  rewrite (dict_get_set String.eqb string_eqb_iff). simpl.
  destruct (lower c =? k)%string; reflexivity.
Qed.

Lemma columns_lower_get (columns : list string) (k : string) :
  dict_get String.eqb (columns_lower columns) k = last_match columns k.
Proof.
  unfold columns_lower. rewrite columns_lower_fold.
  destruct (last_match columns k); reflexivity.
Qed.

Lemma last_match_Some (columns : list string) (k c : string) :
  last_match columns k = Some c -> In c columns /\ lower c = k.
Proof.
  unfold last_match. intros Hf. apply find_some in Hf. destruct Hf as [Hin Heq].
  split; [now apply in_rev | now apply String.eqb_eq].
Qed.

Lemma last_match_None (columns : list string) (k : string) :
  last_match columns k = None <-> ~ matches columns k.
Proof.
  unfold last_match, matches. split.
  - intros Hf [c [Hin Hc]].
    apply in_rev in Hin.
    pose proof (find_none _ _ Hf c Hin) as Hne. simpl in Hne.
    apply String.eqb_eq in Hc. congruence.
  - intros Hno. destruct (find _ (rev columns)) as [c|] eqn:Hf; [|reflexivity].
    exfalso. apply Hno. apply find_some in Hf. destruct Hf as [Hin Heq].
    exists c. split; [now apply in_rev | now apply String.eqb_eq].
Qed.

Lemma matches_perm (columns columns' : list string) (k : string) :
  Permutation columns columns' -> matches columns k -> matches columns' k.
Proof.
  intros Hp [c [Hin Hc]]. exists c. split; [|exact Hc].
  now apply (Permutation_in _ Hp).
Qed.

Lemma schema_get_pick (columns : list string) (r : role) :
  schema_get (_auto_map_columns columns) r = pick (columns_lower columns) (candidates r).
Proof. destruct r; reflexivity. Qed.

Lemma pick_None (columns cands : list string) :
  pick (columns_lower columns) cands = None
  <-> forall k, In k cands -> ~ matches columns k.
Proof.
  induction cands as [|k0 rest IH]; simpl.
  - split; [intros _ k [] | reflexivity].
  - rewrite columns_lower_get.
    destruct (last_match columns k0) as [c|] eqn:Hm.
    + split; [discriminate|]. intros Hall. exfalso.
      apply (Hall k0 (or_introl eq_refl)).
      apply last_match_Some in Hm. destruct Hm as [Hin Hc]. now exists c.
    + rewrite IH. apply last_match_None in Hm. split.
      * intros Hall k [Hk|Hk]; [now subst | now apply Hall].
      * intros Hall k Hk. apply Hall. now right.
Qed.

Lemma pick_Some (columns cands : list string) (c : string) :
  pick (columns_lower columns) cands = Some c ->
  In c columns /\
  exists pre post, cands = (pre ++ lower c :: post)%list /\
                   forall k, In k pre -> ~ matches columns k.
Proof.
  induction cands as [|k0 rest IH]; simpl; [discriminate|].
  rewrite columns_lower_get.
  destruct (last_match columns k0) as [c0|] eqn:Hm.
  - intros Heq. injection Heq as ->.
    apply last_match_Some in Hm. destruct Hm as [Hin Hc].
    split; [exact Hin|]. exists [], rest. rewrite Hc. split; [reflexivity|].
    intros k [].
  - intros Hp. destruct (IH Hp) as [Hin [pre [post [Hsplit Hpre]]]].
    split; [exact Hin|]. exists (k0 :: pre), post. split.
    + simpl. now rewrite Hsplit.
    + apply last_match_None in Hm.
      intros k [Hk|Hk]; [now subst | now apply Hpre].
Qed.

Lemma pick_perm_lower (columns columns' cands : list string) :
  Permutation columns columns' ->
  option_map lower (pick (columns_lower columns') cands)
  = option_map lower (pick (columns_lower columns) cands).
Proof.
  intros Hp. induction cands as [|k0 rest IH]; simpl; [reflexivity|].
  rewrite !columns_lower_get.
  destruct (last_match columns k0) as [c|] eqn:Hm,
           (last_match columns' k0) as [c'|] eqn:Hm'.
  - apply last_match_Some in Hm, Hm'. simpl.
    destruct Hm as [_ ->], Hm' as [_ Hc']. now rewrite Hc'.
  - exfalso. apply last_match_None in Hm'. apply Hm'.
    apply (matches_perm columns); [exact Hp|].
    apply last_match_Some in Hm. destruct Hm as [Hin Hc]. now exists c.
  - exfalso. apply last_match_None in Hm. apply Hm.
    apply (matches_perm columns'); [now apply Permutation_sym|].
    apply last_match_Some in Hm'. destruct Hm' as [Hin Hc]. now exists c'.
  - exact IH.
Qed.

Lemma pick_perm_nodup (columns columns' cands : list string) :
  Permutation columns columns' ->
  NoDup (map lower columns) ->
  pick (columns_lower columns') cands = pick (columns_lower columns) cands.
Proof.
  intros Hp Hnd.
  pose proof (pick_perm_lower columns columns' cands Hp) as Hl.
  destruct (pick (columns_lower columns') cands) as [c'|] eqn:E',
           (pick (columns_lower columns) cands) as [c|] eqn:E;
    simpl in Hl; try discriminate; [|reflexivity].
  f_equal. injection Hl as Hl.
  apply pick_Some in E, E'. destruct E as [Hin _], E' as [Hin' _].
  apply (NoDup_map_injective lower columns Hnd); [|exact Hin|exact Hl].
  now apply (Permutation_in _ (Permutation_sym Hp)).
Qed.

(** C5.  For every header and every role, [_auto_map_columns] maps the role
    to a column of the header whose lower-cased name is the first candidate,
    in the role's priority order, that some column name matches without
    regard to case; the role is unmapped exactly when no candidate matches.
    Which candidate wins does not depend on the order of the columns, and
    when no two column names agree up to case neither does the column. *)
Theorem C5_first_candidate_wins (columns columns' : list string) (r : role) :
  Permutation columns columns' ->
  let res := schema_get (_auto_map_columns columns) r in
  let res' := schema_get (_auto_map_columns columns') r in
  (res = None <-> forall k, In k (candidates r) -> ~ matches columns k) /\
  (forall c, res = Some c ->
     In c columns /\
     exists pre post, candidates r = (pre ++ lower c :: post)%list /\
                      forall k, In k pre -> ~ matches columns k) /\
  option_map lower res' = option_map lower res /\
  (NoDup (map lower columns) -> res' = res).
Proof.
  intros Hp res res'. subst res res'. rewrite !schema_get_pick.
  split; [apply pick_None|].
  split; [intros c; apply pick_Some|].
  split; [now apply pick_perm_lower | now apply pick_perm_nodup].
Qed.

Lemma C5_first_candidate_wins_witness :
  let columns := ["Offense"; "LAT"; "Category"; "lat"] in
  let columns' := ["lat"; "Category"; "LAT"; "Offense"] in
  Permutation columns columns' /\
  option_map lower (schema_get (_auto_map_columns columns') Latitude)
  = option_map lower (schema_get (_auto_map_columns columns) Latitude).
Proof.
  split; [apply Permutation_rev|].
  apply (C5_first_candidate_wins
           ["Offense"; "LAT"; "Category"; "lat"]
           ["lat"; "Category"; "LAT"; "Offense"] Latitude).
  apply Permutation_rev.
Defined.

(** ** Record Store: a missing data source *)


Lemma get_df_builds `{Library} (w : World) (g : Globals) (df : DataFrame) :
  _df g = None -> csv_file w = Some df ->
  let sch := _auto_map_columns (df_columns df) in
  get_df w g = (Ok (normalize df sch), {| _df := Some (normalize df sch); schema := sch |}).
Proof.
  intros Hdf Hfile. unfold get_df, bind, _load_df. now rewrite Hdf, Hfile.
Qed.

Lemma get_df_never_TypeError `{Library} (w : World) (g : Globals) (msg : string) :
  fst (get_df w g) <> Raise (TypeError msg).
Proof.
  unfold get_df, bind, _load_df.
  destruct (_df g); simpl; [discriminate|].
  destruct (csv_file w); simpl; discriminate.
Qed.

(** C9.  When the data source is absent and the store has not been built,
    [_load_df] raises FileNotFoundError, [get_df] passes that same exception
    on, every handler that reads the store answers 404 with the exception's
    message, and the globals are left as they were, so [_df] is still empty;
    the next request runs the build again and, once the file is there,
    gets the store. *)
Theorem C9_source_not_found `{Library} (w : World) (g : Globals) :
  csv_file w = None -> _df g = None ->
  let msg := ("CSV not found at " ++ CSV_PATH w)%string in
  _load_df w g = (Raise (FileNotFoundError msg), g) /\
  get_df w g = (Raise (FileNotFoundError msg), g) /\
  columns w g = (Raise (HTTPException 404 msg), g) /\
  (forall p, incidents w p g = (Raise (HTTPException 404 msg), g)) /\
  (forall by_ sd ed, stats w by_ sd ed g = (Raise (HTTPException 404 msg), g)) /\
  geojson w g = (Raise (HTTPException 404 msg), g) /\
  (forall bins, heatmap w bins g = (Raise (HTTPException 404 msg), g)) /\
  (forall w' df, csv_file w' = Some df ->
     let sch := _auto_map_columns (df_columns df) in
     get_df w' (snd (get_df w g))
     = (Ok (normalize df sch), {| _df := Some (normalize df sch); schema := sch |})).
Proof.
  intros Hfile Hdf msg.
  assert (Hload : _load_df w g = (Raise (FileNotFoundError msg), g)).
  { unfold _load_df. now rewrite Hfile. }
  assert (Hget : get_df w g = (Raise (FileNotFoundError msg), g)).
  { unfold get_df, bind. now rewrite Hdf, Hload. }
  assert (H404 : forall (A : Type) (k : Frame -> M A),
             bind (not_found_as_404 (get_df w)) k g
             = (Raise (HTTPException 404 msg), g)).
  { intros A k. unfold bind, not_found_as_404. now rewrite Hget. }
  repeat split; try exact Hload; try exact Hget.
  - unfold columns, not_found_as_404, bind. now rewrite Hget.
  - intros p. apply H404.
  - intros by_ sd ed. apply H404.
  - apply H404.
  - intros bins. apply H404.
  - intros w' df Hfile' sch. rewrite Hget. simpl.
    now apply get_df_builds.
Qed.

Lemma C9_source_not_found_witness :
  csv_file (at_path None) = None /\ _df initial = None /\
  @geojson sample (at_path None) initial
  = (Raise (HTTPException 404 "CSV not found at data/crime.csv"), initial).
Proof.
  split; [reflexivity|]. split; [reflexivity|].
  apply (@C9_source_not_found sample (at_path None) initial); reflexivity.
Defined.

(** ** Counting into a dict *)

Lemma fold_left_map_fuse {A B C : Type} (f : A -> B -> A) (g : C -> B) (l : list C) (a : A) :
  fold_left (fun acc x => f acc (g x)) l a = fold_left f (map g l) a.
Proof. revert a. induction l as [|x l IH]; intros a; simpl; [reflexivity | apply IH]. Qed.

Section Counting.
Context {K : Type} (eqb : K -> K -> bool).

Lemma dict_incr_sum (d : list (K * nat)) (k : K) :
  sum_counts (dict_incr eqb d k) = S (sum_counts d).
Proof.
  unfold dict_incr, sum_counts.
  induction d as [|[k0 n0] d IH]; simpl; [reflexivity|].
  destruct (eqb k0 k); simpl; [lia|].
  rewrite IH. lia.
Qed.

Lemma value_counts_sum_from (keys : list K) (d : list (K * nat)) :
  sum_counts (fold_left (dict_incr eqb) keys d) = (sum_counts d + List.length keys)%nat.
Proof.
  revert d. induction keys as [|k keys IH]; intros d; simpl; [lia|].
  rewrite IH, dict_incr_sum. lia.
Qed.


Lemma dict_incr_keys (d : list (K * nat)) (k : K) (g : K * nat) :
  In g (dict_incr eqb d k) -> fst g = k \/ In (fst g) (map fst d).
Proof.
  unfold dict_incr.
  generalize ((match dict_get eqb d k with Some n => n | None => O end + 1)%nat).
  intros v. induction d as [|[k0 n0] d IH]; simpl.
  - intros [<-|[]]. now left.
  - destruct (eqb k0 k); simpl.
    + intros [<-|Hin]; right; [now left|]. right. now apply in_map.
    + intros [<-|Hin]; [right; now left|].
      destruct (IH Hin) as [Hk|Hk]; [now left | right; now right].
Qed.

Lemma value_counts_keys_from (keys : list K) (d : list (K * nat)) (g : K * nat) :
  In g (fold_left (dict_incr eqb) keys d) -> In (fst g) keys \/ In (fst g) (map fst d).
Proof.
  revert d. induction keys as [|k keys IH]; intros d; simpl.
  - intros Hin. right. now apply in_map.
  - intros Hin. destruct (IH _ Hin) as [Hk|Hk]; [left; now right|].
    apply in_map_iff in Hk. destruct Hk as [g' [Hfst Hin']].
    destruct (dict_incr_keys d k g' Hin') as [Hk|Hk].
    + left. left. congruence.
    + right. congruence.
Qed.
End Counting.

(** ** Geographic views *)

Lemma isna_all_Forall {A : Type} (f : Row -> option A) (df : list Row) :
  isna_all (map f df) = true <-> Forall (fun r => f r = None) df.
Proof.
  unfold isna_all. induction df as [|r df IH]; simpl.
  - split; [constructor | reflexivity].
  - rewrite andb_true_iff, IH. unfold isna. split.
    + intros [Hr Hdf]. constructor; [|exact Hdf]. now destruct (f r).
    + intros Hall. inversion Hall as [|? ? Hr Hdf]; subst. now rewrite Hr.
Qed.


Lemma dropna_length {A : Type} (f : Row -> option A) (df : list Row) :
  List.length (dropna (map f df)) = List.length (filter (fun r => is_some (f r)) df).
Proof.
  unfold dropna. induction df as [|r df IH]; simpl; [reflexivity|].
  destruct (f r); simpl; now rewrite IH.
Qed.

Lemma dropna_nonempty {A : Type} (col : list (option A)) :
  isna_all col = false -> dropna col <> [].
Proof.
  unfold isna_all, dropna. induction col as [|o col IH]; simpl; [discriminate|].
  destruct o; simpl; [discriminate | exact IH].
Qed.

(** When latitude and longitude are present together or missing together,
    the two cleaned series hold exactly the records with both. *)
Lemma aligned_lengths (df : list Row) :
  (forall r, In r df -> is_some (_lat r) = is_some (_lng r)) ->
  List.length (dropna (map _lat df)) = List.length (filter both df) /\
  List.length (dropna (map _lng df)) = List.length (filter both df).
Proof.
  intros Hal. rewrite !dropna_length. unfold both.
  induction df as [|r df IH]; simpl; [split; reflexivity|].
  assert (Hr : is_some (_lat r) = is_some (_lng r)) by (apply Hal; now left).
  destruct IH as [IH1 IH2]; [intros r' Hr'; apply Hal; now right|].
  rewrite <- Hr. destruct (is_some (_lat r)); simpl; rewrite ?IH1, ?IH2; split; reflexivity.
Qed.


Lemma geo_guard_iff (df : list Row) :
  isna_all (map _lat df) || isna_all (map _lng df) = true
  <-> Forall (fun r => _lat r = None) df \/ Forall (fun r => _lng r = None) df.
Proof. now rewrite orb_true_iff, !isna_all_Forall. Qed.

Lemma geojson_raises_iff (df : list Row) :
  geojson_body df = Raise no_geo
  <-> Forall (fun r => _lat r = None) df \/ Forall (fun r => _lng r = None) df.
Proof.
  rewrite <- geo_guard_iff. unfold geojson_body.
  destruct (isna_all (map _lat df) || isna_all (map _lng df)); split;
    intros Hx; try reflexivity; discriminate.
Qed.

Lemma heatmap_raises_iff (df : list Row) (bins : Z) :
  heatmap_body df bins = Raise no_geo
  <-> Forall (fun r => _lat r = None) df \/ Forall (fun r => _lng r = None) df.
Proof.
  rewrite <- geo_guard_iff. unfold heatmap_body.
  destruct (isna_all (map _lat df) || isna_all (map _lng df)).
  - split; reflexivity.
  - destruct (dropna (map _lat df)), (dropna (map _lng df));
      try (split; intros Hx; discriminate).
    destruct (Qeq_bool _ _ || Qeq_bool _ _); split; intros Hx; discriminate.
Qed.





(** *** The grid of the heatmap *)

Lemma qmin_le_l (a b : Q) : (qmin a b <= a)%Q.
Proof.
  unfold qmin. destruct (Qle_bool a b) eqn:E; [apply Qle_refl|].
  apply Qlt_le_weak, Qnot_le_lt. intros Hle.
  apply Qle_bool_iff in Hle. congruence.
Qed.

Lemma qmin_le_r (a b : Q) : (qmin a b <= b)%Q.
Proof.
  unfold qmin. destruct (Qle_bool a b) eqn:E; [|apply Qle_refl].
  now apply Qle_bool_iff.
Qed.

Lemma qmax_ge_l (a b : Q) : (a <= qmax a b)%Q.
Proof.
  unfold qmax. destruct (Qle_bool a b) eqn:E; [|apply Qle_refl].
  now apply Qle_bool_iff.
Qed.

Lemma qmax_ge_r (a b : Q) : (b <= qmax a b)%Q.
Proof.
  unfold qmax. destruct (Qle_bool a b) eqn:E; [apply Qle_refl|].
  apply Qlt_le_weak, Qnot_le_lt. intros Hle.
  apply Qle_bool_iff in Hle. congruence.
Qed.

Lemma fold_qmin_le (t : list Q) (x : Q) :
  (fold_left qmin t x <= x)%Q /\ forall y, In y t -> (fold_left qmin t x <= y)%Q.
Proof.
  revert x. induction t as [|a t IH]; intros x; simpl.
  - split; [apply Qle_refl | intros y []].
  - destruct (IH (qmin x a)) as [Hhd Htl]. split.
    + eapply Qle_trans; [exact Hhd | apply qmin_le_l].
    + intros y [<-|Hy]; [|now apply Htl].
      eapply Qle_trans; [exact Hhd | apply qmin_le_r].
Qed.

Lemma fold_qmax_ge (t : list Q) (x : Q) :
  (x <= fold_left qmax t x)%Q /\ forall y, In y t -> (y <= fold_left qmax t x)%Q.
Proof.
  revert x. induction t as [|a t IH]; intros x; simpl.
  - split; [apply Qle_refl | intros y []].
  - destruct (IH (qmax x a)) as [Hhd Htl]. split.
    + eapply Qle_trans; [apply qmax_ge_l | exact Hhd].
    + intros y [<-|Hy]; [|now apply Htl].
      eapply Qle_trans; [apply qmax_ge_r | exact Hhd].
Qed.

Lemma series_min_le (l : list Q) (x : Q) : In x l -> (series_min l <= x)%Q.
Proof.
  destruct l as [|a t]; simpl; [intros []|].
  destruct (fold_qmin_le t a) as [Hhd Htl].
  intros [<-|Hx]; [exact Hhd | now apply Htl].
Qed.

Lemma series_max_ge (l : list Q) (x : Q) : In x l -> (x <= series_max l)%Q.
Proof.
  destruct l as [|a t]; simpl; [intros []|].
  destruct (fold_qmax_ge t a) as [Hhd Htl].
  intros [<-|Hx]; [exact Hhd | now apply Htl].
Qed.

Lemma series_min_le_max (l : list Q) : (series_min l <= series_max l)%Q.
Proof.
  destruct l as [|a t]; [apply Qle_refl|].
  eapply Qle_trans; [apply (series_min_le (a :: t) a) | apply (series_max_ge (a :: t) a)];
    now left.
Qed.

(** The width of a cell is positive when the range is not degenerate. *)
Lemma step_positive (l : list Q) (bins : Z) :
  1 <= bins -> Qeq_bool (series_min l) (series_max l) = false ->
  (0 < (series_max l - series_min l) / inject_Z bins)%Q.
Proof.
  intros Hbins Hne.
  assert (Hlt : (series_min l < series_max l)%Q).
  { destruct (Qle_lt_or_eq _ _ (series_min_le_max l)) as [Hlt|Heq]; [exact Hlt|].
    apply Qeq_bool_iff in Heq. congruence. }
  apply Qlt_shift_div_l.
  - change 0%Q with (inject_Z 0). rewrite <- Zlt_Qlt. lia.
  - rewrite Qmult_0_l. now apply Qlt_minus_iff in Hlt.
Qed.

Lemma py_int_nonneg (x : Q) : (0 <= x)%Q -> 0 <= py_int x.
Proof.
  unfold Qle, py_int. simpl. intros Hx.
  apply Z.quot_pos; lia.
Qed.

Lemma cell_index_range (v v_min step : Q) (bins : Z) :
  1 <= bins -> (0 < step)%Q -> (v_min <= v)%Q ->
  0 <= cell_index v v_min step bins <= bins - 1.
Proof.
  intros Hbins Hstep Hv. unfold cell_index.
  assert (Hq : 0 <= py_int ((v - v_min) / step)).
  { apply py_int_nonneg. apply Qle_shift_div_l; [exact Hstep|].
    rewrite Qmult_0_l. now apply Qle_minus_iff in Hv. }
  lia.
Qed.

Lemma fill_grid_counts (lat lng : list Q) (lat_min lng_min lat_step lng_step : Q) (bins : Z) :
  sum_counts (fill_grid lat lng lat_min lng_min lat_step lng_step bins)
  = Nat.min (List.length lat) (List.length lng).
Proof.
  unfold fill_grid. cbv zeta.
  rewrite (fold_left_map_fuse (dict_incr zz_eqb)
             (fun p : Q * Q => (cell_index (fst p) lat_min lat_step bins,
                                cell_index (snd p) lng_min lng_step bins))).
  rewrite value_counts_sum_from, length_map, length_combine. reflexivity.
Qed.

Lemma fill_grid_in_range (lat lng : list Q) (lat_min lng_min lat_step lng_step : Q)
    (bins i j : Z) (n : nat) :
  1 <= bins -> (0 < lat_step)%Q -> (0 < lng_step)%Q ->
  (forall la, In la lat -> (lat_min <= la)%Q) ->
  (forall lo, In lo lng -> (lng_min <= lo)%Q) ->
  In (i, j, n) (fill_grid lat lng lat_min lng_min lat_step lng_step bins) ->
  0 <= i <= bins - 1 /\ 0 <= j <= bins - 1.
Proof.
  intros Hbins Hla_step Hlo_step Hla Hlo. unfold fill_grid. cbv zeta.
  rewrite (fold_left_map_fuse (dict_incr zz_eqb)
             (fun p : Q * Q => (cell_index (fst p) lat_min lat_step bins,
                                cell_index (snd p) lng_min lng_step bins))).
  intros Hin. apply value_counts_keys_from in Hin. simpl in Hin.
  destruct Hin as [Hin|[]].
  apply in_map_iff in Hin. destruct Hin as [[la lo] [Hkey Hpair]].
  simpl in Hkey. injection Hkey as <- <-.
  split; apply cell_index_range; auto.
  - apply Hla. eapply in_combine_l. exact Hpair.
  - apply Hlo. eapply in_combine_r. exact Hpair.
Qed.

(** Every cell index that the heatmap computes on its non-degenerate
    branch lies in [0, bins - 1] on both axes. *)
Lemma heatmap_indices_in_range (df : list Row) (bins i j : Z) (n : nat) :
  valid_bins bins ->
  let lat := dropna (map _lat df) in
  let lng := dropna (map _lng df) in
  Qeq_bool (series_min lat) (series_max lat)
  || Qeq_bool (series_min lng) (series_max lng) = false ->
  In (i, j, n)
     (fill_grid lat lng (series_min lat) (series_min lng)
        ((series_max lat - series_min lat) / inject_Z bins)
        ((series_max lng - series_min lng) / inject_Z bins) bins) ->
  0 <= i <= bins - 1 /\ 0 <= j <= bins - 1.
Proof.
  intros [Hlo _] lat lng Hnd. apply orb_false_iff in Hnd. destruct Hnd as [Hla Hlg].
  apply fill_grid_in_range.
  - lia.
  - apply step_positive; [lia | exact Hla].
  - apply step_positive; [lia | exact Hlg].
  - apply series_min_le.
  - apply series_min_le.
Qed.

Lemma grid_cells_counts (mk : Z * Z * nat -> HeatCell) (g : list (Z * Z * nat)) :
  (forall x, count (mk x) = snd x) ->
  list_sum (map count (map mk g)) = sum_counts g.
Proof.
  intros Hmk. unfold sum_counts. rewrite map_map.
  f_equal. apply map_ext. exact Hmk.
Qed.

(** On the non-degenerate branch the counts add up to the number of pairs
    that [zip] makes of the two cleaned series. *)
Lemma heatmap_total_pairs (df : list Row) (bins : Z) (h : Heatmap) :
  heatmap_body df bins = Ok h -> bounds h <> None ->
  heat_total h = Nat.min (List.length (filter (fun r => is_some (_lat r)) df))
                         (List.length (filter (fun r => is_some (_lng r)) df)).
Proof.
  rewrite <- !dropna_length. unfold heatmap_body, heat_total.
  destruct (isna_all (map _lat df) || isna_all (map _lng df)); [discriminate|].
  destruct (dropna (map _lat df)) as [|la lat] eqn:Elat;
    destruct (dropna (map _lng df)) as [|lo lng] eqn:Elng;
    try (intros [= <-]; simpl; congruence).
  destruct (Qeq_bool _ _ || Qeq_bool _ _); intros [= <-]; simpl bounds; [congruence|].
  intros _. cbv [grid].
  rewrite grid_cells_counts; [apply fill_grid_counts|].
  intros [[i j] n]. reflexivity.
Qed.

(** The degenerate branch: one cell at the two minima, counting the
    records that have a latitude. *)
Lemma heatmap_degenerate (df : list Row) (bins : Z) :
  isna_all (map _lat df) || isna_all (map _lng df) = false ->
  let lat := dropna (map _lat df) in
  let lng := dropna (map _lng df) in
  Qeq_bool (series_min lat) (series_max lat)
  || Qeq_bool (series_min lng) (series_max lng) = true ->
  heatmap_body df bins
  = Ok {| heat_bins := bins; bounds := None;
          grid := [{| cell_lat := series_min lat; cell_lng := series_min lng;
                      count := List.length (filter (fun r => is_some (_lat r)) df) |}] |}.
Proof.
  intros Hg. cbv zeta. intros Hdeg. rewrite <- dropna_length.
  unfold heatmap_body. rewrite Hg.
  apply orb_false_iff in Hg. destruct Hg as [Hla Hlo].
  apply dropna_nonempty in Hla, Hlo.
  revert Hdeg.
  destruct (dropna (map _lat df)) as [|la lat]; [congruence|].
  destruct (dropna (map _lng df)) as [|lo lng]; [congruence|].
  intros Hdeg. now rewrite Hdeg.
Qed.

(** C1 (failing input).  On a store with one record that has only a
    latitude, one that has only a longitude and one that has both, the
    heatmap takes its non-degenerate branch and its cell counts add up to
    two, although a single record has both coordinates: [dropna] cleans
    the two columns separately and [zip] pairs what is left by position. *)
Theorem C1_heatmap_pairs_by_position :
  let df := @store sample geo_ragged in
  exists h, heatmap_body df 5 = Ok h /\ bounds h <> None /\
            heat_total h = 2%nat /\ List.length (filter both df) = 1%nat.
Proof.
  eexists. split; [vm_compute; reflexivity|].
  split; [discriminate|]. split; reflexivity.
Qed.

(** The counts do add up to the number of records with both coordinates
    when no record has one coordinate without the other. *)
Lemma heatmap_total_aligned (df : list Row) (bins : Z) (h : Heatmap) :
  (forall r, In r df -> is_some (_lat r) = is_some (_lng r)) ->
  heatmap_body df bins = Ok h -> bounds h <> None ->
  heat_total h = List.length (filter both df).
Proof.
  intros Hal Hh Hb. rewrite (heatmap_total_pairs df bins h Hh Hb).
  destruct (aligned_lengths df Hal) as [Hla Hlo].
  rewrite <- !dropna_length, Hla, Hlo. apply Nat.min_id.
Qed.

(** C2 (failing input).  Two records share their latitude and only the
    second has a longitude: the degenerate branch returns one cell at
    (1, 5) with count two, while one record has both coordinates. *)
Theorem C2_degenerate_counts_latitudes :
  let df := @store sample geo_same_lat in
  heatmap_body df 10
  = Ok {| heat_bins := 10; bounds := None;
          grid := [{| cell_lat := 1; cell_lng := 5; count := 2 |}] |}
  /\ List.length (filter both df) = 1%nat.
Proof. split; reflexivity. Qed.

(** The ranges are taken column by column: here the only record with both
    coordinates is a degenerate set, and the heatmap still builds a grid
    of two cells. *)
Lemma heatmap_grid_for_one_record :
  let df := @store sample geo_one_both in
  List.length (filter both df) = 1%nat /\
  exists h, heatmap_body df 10 = Ok h /\ bounds h <> None /\
            List.length (grid h) = 2%nat.
Proof.
  split; [reflexivity|]. eexists. split; [vm_compute; reflexivity|].
  split; [discriminate | reflexivity].
Qed.

Lemma heatmap_degenerate_aligned (df : list Row) (bins : Z) :
  (forall r, In r df -> is_some (_lat r) = is_some (_lng r)) ->
  isna_all (map _lat df) || isna_all (map _lng df) = false ->
  let lat := dropna (map _lat df) in
  let lng := dropna (map _lng df) in
  Qeq_bool (series_min lat) (series_max lat)
  || Qeq_bool (series_min lng) (series_max lng) = true ->
  heatmap_body df bins
  = Ok {| heat_bins := bins; bounds := None;
          grid := [{| cell_lat := series_min lat; cell_lng := series_min lng;
                      count := List.length (filter both df) |}] |}.
Proof.
  intros Hal Hg lat lng Hdeg.
  destruct (aligned_lengths df Hal) as [Hla _].
  rewrite <- Hla, dropna_length. now apply heatmap_degenerate.
Qed.

(** ** Sorting *)

Section SortPermutation.
Context {A : Type} (leb : A -> A -> bool).

Lemma insert_sorted_perm (x : A) (l : list A) :
  Permutation (insert_sorted leb x l) (x :: l).
Proof.
  induction l as [|y l IH]; simpl; [apply Permutation_refl|].
  destruct (leb x y); [apply Permutation_refl|].
  eapply Permutation_trans; [apply perm_skip, IH | apply perm_swap].
Qed.

Lemma isort_perm (l : list A) : Permutation (isort leb l) l.
Proof.
  induction l as [|x l IH]; simpl; [constructor|].
  eapply Permutation_trans; [apply insert_sorted_perm | now apply perm_skip].
Qed.

Lemma argsort_perm (ascending : bool) (l : list A) :
  Permutation (argsort leb ascending l) l.
Proof.
  unfold argsort. destruct ascending; [apply isort_perm|].
  eapply Permutation_trans; [apply Permutation_sym, Permutation_rev|].
  eapply Permutation_trans; [apply isort_perm|].
  apply Permutation_sym, Permutation_rev.
Qed.

Lemma argsort_length (ascending : bool) (l : list A) :
  List.length (argsort leb ascending l) = List.length l.
Proof. apply Permutation_length, argsort_perm. Qed.
End SortPermutation.

Section SortOrder.
Context {A : Type} (leb : A -> A -> bool) (P : A -> Prop).
Hypothesis leb_total : forall x y, P x -> P y -> leb x y = true \/ leb y x = true.
Hypothesis leb_trans :
  forall x y z, P x -> P y -> P z -> leb x y = true -> leb y z = true -> leb x z = true.

Lemma insert_sorted_sorted (x : A) (l : list A) :
  P x -> Forall P l ->
  StronglySorted (fun a b => leb a b = true) l ->
  StronglySorted (fun a b => leb a b = true) (insert_sorted leb x l).
Proof.
  intros Px. induction l as [|y l IH]; intros HP Hs; simpl.
  - constructor; constructor.
  - inversion HP as [|? ? Py HPl]; subst.
    inversion Hs as [|? ? Hsl Hy]; subst.
    destruct (leb x y) eqn:Exy.
    + constructor; [exact Hs|]. constructor; [exact Exy|].
      rewrite Forall_forall in *. intros z Hz.
      apply (leb_trans x y z); auto.
    + constructor; [now apply IH|].
      apply (Permutation_Forall (Permutation_sym (insert_sorted_perm leb x l))).
      constructor; [|exact Hy].
      destruct (leb_total x y Px Py) as [Hc|Hc]; [congruence | exact Hc].
Qed.

Lemma isort_sorted (l : list A) :
  Forall P l -> StronglySorted (fun a b => leb a b = true) (isort leb l).
Proof.
  induction l as [|x l IH]; intros HP; simpl; [constructor|].
  inversion HP as [|? ? Px HPl]; subst.
  apply insert_sorted_sorted; auto.
  apply (Permutation_Forall (Permutation_sym (isort_perm leb l))). exact HPl.
Qed.
End SortOrder.

(** Two sorted lists with the same elements are the same list when the
    order is antisymmetric. *)
Lemma sorted_perm_unique {K : Type} (R : K -> K -> Prop) (P : K -> Prop) :
  (forall x y, P x -> P y -> R x y -> R y x -> x = y) ->
  forall l1 l2, Forall P l1 -> StronglySorted R l1 -> StronglySorted R l2 ->
                Permutation l1 l2 -> l1 = l2.
Proof.
  intros Hanti. induction l1 as [|a t1 IH]; intros l2 HP Hs1 Hs2 Hperm.
  - apply Permutation_nil in Hperm. now subst.
  - destruct l2 as [|b t2].
    + apply Permutation_sym, Permutation_nil in Hperm. discriminate.
    + inversion HP as [|? ? Pa HPt]; subst.
      inversion Hs1 as [|? ? Hst1 Ha]; subst.
      inversion Hs2 as [|? ? Hst2 Hb]; subst.
      assert (Hab : a = b).
      { assert (Hina : In a (b :: t2)) by (apply (Permutation_in _ Hperm); now left).
        assert (Hinb : In b (a :: t1))
          by (apply (Permutation_in _ (Permutation_sym Hperm)); now left).
        destruct Hina as [Heq|Hina]; [now symmetry|].
        destruct Hinb as [Heq|Hinb]; [exact Heq|].
        rewrite Forall_forall in Ha, Hb, HPt.
        apply Hanti; auto. }
      subst b. f_equal. apply IH; auto.
      now apply Permutation_cons_inv in Hperm.
Qed.

Lemma StronglySorted_map {A K : Type} (f : A -> K) (R : K -> K -> Prop) (l : list A) :
  StronglySorted (fun a b => R (f a) (f b)) l -> StronglySorted R (map f l).
Proof.
  induction 1 as [|a l Hs IH Hall]; simpl; constructor; [exact IH|].
  now apply Forall_map.
Qed.

Lemma map_injective_on {A B : Type} (f : A -> B) (l1 l2 : list A) :
  (forall x y, In x l1 -> In y l2 -> f x = f y -> x = y) ->
  map f l1 = map f l2 -> l1 = l2.
Proof.
  revert l2. induction l1 as [|a l1 IH]; intros [|b l2] Hinj Hmap;
    simpl in Hmap; try discriminate; [reflexivity|].
  injection Hmap as Hab Hrest. f_equal.
  - apply Hinj; [now left | now left | exact Hab].
  - apply IH; [|exact Hrest]. intros x y Hx Hy. apply Hinj; now right.
Qed.

(** *** The order of timestamps *)

Lemma lex_leb_total (a b : list Z) : lex_leb a b = true \/ lex_leb b a = true.
Proof.
  revert b. induction a as [|x a IH]; intros [|y b]; simpl; auto.
  destruct (IH b) as [Hab|Hba].
  - destruct (Z.compare_spec x y) as [Heq|Hlt|Hgt].
    + left. subst. rewrite Z.eqb_refl, Hab. apply orb_true_r.
    + left. apply Z.ltb_lt in Hlt. now rewrite Hlt.
    + right. apply Z.ltb_lt in Hgt. now rewrite Hgt.
  - destruct (Z.compare_spec x y) as [Heq|Hlt|Hgt].
    + right. subst. rewrite Z.eqb_refl, Hba. apply orb_true_r.
    + left. apply Z.ltb_lt in Hlt. now rewrite Hlt.
    + right. apply Z.ltb_lt in Hgt. now rewrite Hgt.
Qed.

Lemma lex_leb_step (x y : Z) (a b : list Z) :
  lex_leb (x :: a) (y :: b) = true <-> x < y \/ (x = y /\ lex_leb a b = true).
Proof.
  simpl. rewrite orb_true_iff, andb_true_iff, Z.ltb_lt, Z.eqb_eq. reflexivity.
Qed.

Lemma lex_leb_trans (a b c : list Z) :
  lex_leb a b = true -> lex_leb b c = true -> lex_leb a c = true.
Proof.
  revert b c. induction a as [|x a IH]; intros [|y b] [|z c]; simpl; try congruence.
  change (lex_leb (x :: a) (y :: b) = true -> lex_leb (y :: b) (z :: c) = true ->
          lex_leb (x :: a) (z :: c) = true).
  rewrite !lex_leb_step. intros [Hxy|[Hxy Hab]] [Hyz|[Hyz Hbc]].
  - left. lia.
  - left. lia.
  - left. lia.
  - right. split; [lia|]. now apply (IH b c).
Qed.

Lemma lex_leb_antisym (a b : list Z) :
  lex_leb a b = true -> lex_leb b a = true -> a = b.
Proof.
  revert b. induction a as [|x a IH]; intros [|y b]; simpl; try congruence.
  change (lex_leb (x :: a) (y :: b) = true -> lex_leb (y :: b) (x :: a) = true ->
          x :: a = y :: b).
  rewrite !lex_leb_step. intros [Hxy|[Hxy Hab]] [Hyx|[Hyx Hba]]; try lia.
  subst. f_equal. now apply IH.
Qed.

Lemma dt_fields_injective (a b : datetime) : dt_fields a = dt_fields b -> a = b.
Proof.
  destruct a, b. unfold dt_fields. simpl. intros Heq.
  injection Heq as -> -> -> -> -> -> ->. reflexivity.
Qed.

Lemma dt_key_leb_total (x y : Row) : dt_key_leb x y = true \/ dt_key_leb y x = true.
Proof.
  unfold dt_key_leb. destruct (_dt x), (_dt y); auto. apply lex_leb_total.
Qed.

Lemma dt_key_leb_trans (x y z : Row) :
  has_dt y = true -> dt_key_leb x y = true -> dt_key_leb y z = true ->
  dt_key_leb x z = true.
Proof.
  unfold has_dt, dt_key_leb.
  destruct (_dt x), (_dt y), (_dt z); simpl; auto; try discriminate.
  intros _. apply lex_leb_trans.
Qed.

Lemma key_le_antisym (a b : option datetime) :
  is_some a = true -> is_some b = true -> key_le a b -> key_le b a -> a = b.
Proof.
  destruct a as [x|], b as [y|]; simpl; try discriminate.
  intros _ _ Hxy Hyx. f_equal.
  apply dt_fields_injective. now apply lex_leb_antisym.
Qed.

Lemma isort_dt_sorted (l : list Row) :
  Forall (fun r => has_dt r = true) l ->
  StronglySorted key_le (map _dt (isort dt_key_leb l)).
Proof.
  intros Hall. apply StronglySorted_map.
  assert (Hs : StronglySorted (fun a b => dt_key_leb a b = true) (isort dt_key_leb l)).
  { apply (isort_sorted dt_key_leb (fun r => has_dt r = true)); [| |exact Hall].
    - intros x y _ _. apply dt_key_leb_total.
    - intros x y z _ Hy _. now apply dt_key_leb_trans. }
  revert Hs. apply StronglySorted_ind.
  - constructor.
  - intros a t Hst IH Ha. constructor; [exact IH|].
    rewrite Forall_forall in *. intros b Hb. specialize (Ha b Hb).
    unfold dt_key_leb in Ha. unfold key_le. destruct (_dt a), (_dt b); auto.
Qed.

(** The sorted sequence of timestamps does not depend on the order in
    which the records come in. *)
Lemma isort_dt_keys (l1 l2 : list Row) :
  Forall (fun r => has_dt r = true) l1 -> Permutation l1 l2 ->
  map _dt (isort dt_key_leb l1) = map _dt (isort dt_key_leb l2).
Proof.
  intros Hall Hperm.
  assert (Hall2 : Forall (fun r => has_dt r = true) l2)
    by (apply (Permutation_Forall Hperm); exact Hall).
  apply (sorted_perm_unique key_le (fun o => is_some o = true) key_le_antisym).
  - apply Forall_map. apply (Permutation_Forall (Permutation_sym (isort_perm _ l1))).
    exact Hall.
  - now apply isort_dt_sorted.
  - now apply isort_dt_sorted.
  - apply Permutation_map.
    eapply Permutation_trans; [apply isort_perm|].
    eapply Permutation_trans; [exact Hperm | apply Permutation_sym, isort_perm].
Qed.

(** ** Listing: sort order *)

Lemma filter_all {A : Type} (f : A -> bool) (l : list A) :
  Forall (fun x => f x = true) l -> filter f l = l.
Proof.
  induction 1 as [|x l Hx Hl IH]; simpl; [reflexivity|]. now rewrite Hx, IH.
Qed.

Lemma filter_none {A : Type} (f : A -> bool) (l : list A) :
  Forall (fun x => f x = false) l -> filter f l = [].
Proof.
  induction 1 as [|x l Hx Hl IH]; simpl; [reflexivity|]. now rewrite Hx, IH.
Qed.

Lemma filter_Forall {A : Type} (f : A -> bool) (l : list A) :
  Forall (fun x => f x = true) (filter f l).
Proof. apply Forall_forall. intros x Hx. now apply filter_In in Hx. Qed.

Lemma filter_partition_perm {A : Type} (f : A -> bool) (l : list A) :
  Permutation (filter f l ++ filter (fun x => negb (f x)) l) l.
Proof.
  induction l as [|x l IH]; simpl; [constructor|].
  destruct (f x); simpl.
  - now apply perm_skip.
  - eapply Permutation_trans; [apply Permutation_sym, Permutation_middle|].
    now apply perm_skip.
Qed.

Lemma sorted_part_has_dt (ascending : bool) (res : list Row) :
  Forall (fun r => has_dt r = true) (argsort dt_key_leb ascending (filter has_dt res)).
Proof.
  apply (Permutation_Forall (Permutation_sym (argsort_perm _ _ _))).
  apply filter_Forall.
Qed.

Lemma sort_values_dt_present (ascending : bool) (res : list Row) :
  filter has_dt (sort_values_dt ascending res)
  = argsort dt_key_leb ascending (filter has_dt res).
Proof.
  unfold sort_values_dt. rewrite filter_app.
  rewrite (filter_all has_dt _ (sorted_part_has_dt ascending res)).
  rewrite (filter_none has_dt (filter _ res)); [apply app_nil_r|].
  apply Forall_forall. intros r Hr. apply filter_In in Hr.
  destruct Hr as [_ Hr]. now apply negb_true_iff in Hr.
Qed.

Lemma sort_values_dt_perm (ascending : bool) (res : list Row) :
  Permutation (sort_values_dt ascending res) res.
Proof.
  unfold sort_values_dt.
  eapply Permutation_trans; [|apply (filter_partition_perm has_dt)].
  apply Permutation_app_tail, argsort_perm.
Qed.


(** C7 (amended).  Sorted by "date" or by "-date", the records without a
    timestamp all come last, in their original order, and the result holds
    the same records; among the records with a timestamp the sequence of
    timestamps under "-date" is the reverse of the one under "date", and
    when those timestamps are pairwise different the sequence of records
    is reversed too. *)
Theorem C7_sort_directions (res : list Row) :
  let asc := sort_values_dt true res in
  let desc := sort_values_dt false res in
  let absent := filter (fun r => negb (has_dt r)) res in
  asc = (filter has_dt asc ++ absent)%list /\
  desc = (filter has_dt desc ++ absent)%list /\
  Permutation asc res /\ Permutation desc res /\
  map _dt (filter has_dt desc) = rev (map _dt (filter has_dt asc)) /\
  (NoDup (map _dt (filter has_dt res)) ->
   filter has_dt desc = rev (filter has_dt asc)).
Proof.
  intros asc desc absent. subst asc desc absent.
  rewrite !sort_values_dt_present.
  assert (Hkeys : map _dt (argsort dt_key_leb false (filter has_dt res))
                  = rev (map _dt (argsort dt_key_leb true (filter has_dt res)))).
  { unfold argsort. rewrite map_rev. f_equal.
    apply isort_dt_keys.
    - apply (Permutation_Forall (Permutation_rev _)), filter_Forall.
    - apply Permutation_sym, Permutation_rev. }
  repeat split.
  - apply sort_values_dt_perm.
  - apply sort_values_dt_perm.
  - exact Hkeys.
  - intros Hnd. apply (map_injective_on _dt).
    + intros x y Hx Hy.
      apply (NoDup_map_injective _dt _ Hnd).
      * apply (Permutation_in _ (argsort_perm dt_key_leb false _) Hx).
      * apply in_rev in Hy.
        apply (Permutation_in _ (argsort_perm dt_key_leb true _) Hy).
    + now rewrite map_rev.
Qed.

Lemma C7_sort_directions_witness :
  let res := @store sample three_days in
  NoDup (map _dt (filter has_dt res)) /\
  filter has_dt (sort_values_dt false res)
  = rev (filter has_dt (sort_values_dt true res)).
Proof.
  assert (Hnd : NoDup (map _dt (filter has_dt (@store sample three_days)))).
  { vm_compute. constructor.
    - intros [Heq|[]]. discriminate.
    - constructor; [intros [] | constructor]. }
  split; [exact Hnd|].
  apply (C7_sort_directions (@store sample three_days)). exact Hnd.
Defined.

Lemma C7_counterexample : ~ spec_sort_reversed (@store sample same_day).
Proof.
  unfold spec_sort_reversed. vm_compute. discriminate.
Qed.

(** ** Listing: filters, total and page *)

Lemma mask_and_map {A : Type} (f g : A -> bool) (l : list A) :
  mask_and (map f l) (map g l) = map (fun r => f r && g r) l.
Proof.
  unfold mask_and. induction l as [|x l IH]; simpl; [reflexivity|]. now rewrite IH.
Qed.

Lemma mask_or_map {A : Type} (f g : A -> bool) (l : list A) :
  mask_or (map f l) (map g l) = map (fun r => f r || g r) l.
Proof.
  unfold mask_or. induction l as [|x l IH]; simpl; [reflexivity|]. now rewrite IH.
Qed.

Lemma repeat_true_map {A : Type} (l : list A) :
  repeat true (List.length l) = map (fun _ => true) l.
Proof. induction l as [|x l IH]; simpl; [reflexivity|]. now rewrite IH. Qed.

Lemma select_map {A : Type} (f : A -> bool) (l : list A) :
  select (map f l) l = filter f l.
Proof.
  unfold select. induction l as [|x l IH]; simpl; [reflexivity|].
  rewrite IH. now destruct (f x).
Qed.

Lemma if_str_mask (df : list Row) (f : Row -> bool) (o : option string)
    (g : string -> Row -> bool) :
  if_str o (fun s => mask_and (map f df) (map (g s) df)) (map f df)
  = map (fun r => f r && if_str o (fun s => g s r) true) df.
Proof.
  unfold if_str. destruct o as [s|]; [destruct (s =? "")%string|].
  - apply map_ext. intros r. now rewrite andb_true_r.
  - apply mask_and_map.
  - apply map_ext. intros r. now rewrite andb_true_r.
Qed.

Lemma if_some_mask (df : list Row) (f : Row -> bool) (o : option Q)
    (g : Q -> Row -> bool) :
  if_some o (fun b => mask_and (map f df) (map (g b) df)) (map f df)
  = map (fun r => f r && if_some o (fun b => g b r) true) df.
Proof.
  unfold if_some. destruct o as [b|].
  - apply mask_and_map.
  - apply map_ext. intros r. now rewrite andb_true_r.
Qed.

Section Listing.
Context `{Library}.

Lemma date_filter_ok (df : list Row) (sd ed : option string) (f : Row -> bool) :
  dates_parse sd ed = true ->
  date_filter df sd ed (map f df) = Ok (map (fun r => f r && in_range sd ed r) df).
Proof.
  unfold dates_parse, date_filter, in_range, if_str. intros Hp.
  destruct sd as [s|]; [destruct (s =? "")%string|];
    (destruct ed as [e|]; [destruct (e =? "")%string|]);
    repeat match goal with
      | |- context [to_datetime ?x] => destruct (to_datetime x); simpl in Hp; try discriminate
      end;
    simpl; rewrite ?mask_and_map; f_equal; apply map_ext; intros r;
    rewrite ?andb_true_r, ?andb_assoc; reflexivity.
Qed.

Lemma date_filter_raises (df : list Row) (sd ed : option string) (filt : list bool) :
  dates_parse sd ed = false ->
  date_filter df sd ed filt = Raise (HTTPException 400 "Invalid start_date") \/
  date_filter df sd ed filt = Raise (HTTPException 400 "Invalid end_date").
Proof.
  unfold dates_parse, date_filter, if_str. intros Hp.
  destruct sd as [s|]; [destruct (s =? "")%string|];
    (destruct ed as [e|]; [destruct (e =? "")%string|]);
    repeat match goal with
      | |- context [to_datetime ?x] => destruct (to_datetime x); simpl in Hp; try discriminate
      end;
    simpl in *; try discriminate; auto.
Qed.

Lemma incidents_filt_ok (df : list Row) (p : IncidentParams) :
  filters_parse p = true ->
  incidents_filt df p = Ok (map (row_matches p) df).
Proof.
  unfold filters_parse. intros Hp. apply andb_true_iff in Hp. destruct Hp as [Hq Hd].
  unfold incidents_filt. rewrite repeat_true_map.
  set (qpred := fun r : Row =>
         if_str (q p)
           (fun s => match re_compile (lower s) with
                     | Some search => search (lower (_desc r)) || search (lower (_cat r))
                     | None => false
                     end) true).
  match goal with
  | |- rbind ?step _ = _ =>
      assert (Hstep : step = Ok (map (fun r => true && qpred r) df))
  end.
  { unfold qpred, if_str in *. destruct (q p) as [s|]; [|reflexivity].
    destruct (s =? "")%string; [reflexivity|].
    destruct (re_compile (lower s)); [|discriminate].
    now rewrite mask_or_map, mask_and_map. }
  rewrite Hstep. cbn [rbind]. cbv zeta.
  rewrite (if_str_mask df _ (category p) (fun s r => (lower (_cat r) =? lower s)%string)).
  rewrite (if_str_mask df _ (city p) (fun s r => (lower (_city r) =? lower s)%string)).
  rewrite (if_str_mask df _ (state p) (fun s r => (lower (_state r) =? lower s)%string)).
  rewrite (date_filter_ok df _ _ _ Hd). cbn [rbind].
  rewrite (if_some_mask df _ (min_lat p) (fun b r => q_ge b (_lat r))).
  rewrite (if_some_mask df _ (max_lat p) (fun b r => q_le b (_lat r))).
  rewrite (if_some_mask df _ (min_lng p) (fun b r => q_ge b (_lng r))).
  rewrite (if_some_mask df _ (max_lng p) (fun b r => q_le b (_lng r))).
  reflexivity.
Qed.

(** Otherwise the handler raises before it reports anything. *)
Lemma incidents_body_raises (df : list Row) (p : IncidentParams) :
  filters_parse p = false -> exists e, incidents_body df p = Raise e.
Proof.
  unfold filters_parse, incidents_body, incidents_filt. intros Hp.
  match goal with
  | |- exists e, rbind (rbind ?step _) _ = _ => destruct step as [filt|e] eqn:Hstep
  end; [|now exists e].
  cbn [rbind]. cbv zeta.
  apply andb_false_iff in Hp. destruct Hp as [Hq|Hd].
  - exfalso. unfold if_str in Hq, Hstep.
    destruct (q p) as [s|]; [|discriminate].
    destruct (s =? "")%string; [discriminate|].
    destruct (re_compile (lower s)); discriminate.
  - match goal with
    | |- context [date_filter df ?a ?b ?f] =>
        destruct (date_filter_raises df a b f Hd) as [E|E]; rewrite E
    end; cbn [rbind]; eexists; reflexivity.
Qed.

Lemma incidents_body_ok (df : list Row) (p : IncidentParams) :
  filters_parse p = true ->
  let res := sort_by (sort p) (filter (row_matches p) df) in
  incidents_body df p
  = Ok {| total := Z.of_nat (List.length res);
          page_limit := limit p; page_offset := offset p;
          items := map project (iloc res (offset p) (limit p)) |}.
Proof.
  intros Hp. unfold incidents_body. rewrite (incidents_filt_ok df p Hp).
  cbn [rbind]. rewrite select_map. reflexivity.
Qed.



End Listing.

(** ** Record Store: the derived columns *)

Lemma index_of_In (c : string) (columns : list string) :
  In c columns -> exists j, index_of c columns = Some j.
Proof.
  induction columns as [|c0 columns IH]; simpl; [intros []|].
  intros Hin. destruct (c0 =? c)%string eqn:E; [now exists O|].
  destruct Hin as [Heq|Hin].
  - subst. rewrite String.eqb_refl in E. discriminate.
  - destruct (IH Hin) as [j Hj]. rewrite Hj. now exists (S j).
Qed.

Lemma has_column_In (df : DataFrame) (c : string) :
  In c (df_columns df) -> has_column df c = true.
Proof.
  intros Hin. unfold has_column. apply existsb_exists.
  exists c. split; [exact Hin | apply String.eqb_refl].
Qed.

Lemma lower_empty (c : string) : lower c = "" -> c = "".
Proof. destruct c; simpl; [reflexivity | discriminate]. Qed.

Lemma candidates_not_empty (r : role) : ~ In "" (candidates r).
Proof.
  destruct r; simpl; intros Hin;
    repeat (destruct Hin as [Hin|Hin]; [discriminate|]); exact Hin.
Qed.

(** A mapped role names a column of the frame, and not the empty name. *)
Lemma mapped_usable (df : DataFrame) (r : role) (c : string) :
  schema_get (_auto_map_columns (df_columns df)) r = Some c ->
  In c (df_columns df) /\ usable df (Some c) = true.
Proof.
  rewrite schema_get_pick. intros Hp. apply pick_Some in Hp.
  destruct Hp as [Hin [pre [post [Hsplit _]]]].
  split; [exact Hin|]. unfold usable, truthy.
  rewrite (has_column_In df c Hin), andb_true_r.
  destruct (c =? "")%string eqn:E; [|reflexivity].
  apply String.eqb_eq in E. subst c. exfalso.
  apply (candidates_not_empty r). rewrite Hsplit.
  apply in_or_app. right. now left.
Qed.

Lemma getcol_nth (df : DataFrame) (c : string) (i : nat) (raw : list cell) :
  In c (df_columns df) ->
  nth_error (df_rows df) i = Some raw ->
  nth_error (getcol df c) i = Some (row_cell df c raw).
Proof.
  intros Hin Hraw. unfold getcol, row_cell.
  destruct (index_of_In c _ Hin) as [j Hj]. rewrite Hj.
  exact (map_nth_error (fun r => nth j r CNaN) i (df_rows df) Hraw).
Qed.

Lemma nth_of_nth_error {A : Type} (l : list A) (i : nat) (x d : A) :
  nth_error l i = Some x -> nth i l d = x.
Proof. intros Hn. now apply nth_error_nth. Qed.

Lemma nth_repeat_same {A : Type} (x : A) (n i : nat) : nth i (repeat x n) x = x.
Proof.
  revert i. induction n as [|n IH]; intros [|i]; simpl; auto.
Qed.

Lemma str_of_Z_not_empty (n : Z) : str_of_Z n <> "".
Proof.
  unfold str_of_Z. destruct (Z.to_int n) as [d|d]; [|discriminate].
  destruct d; discriminate.
Qed.

Section Load.
Context `{Library}.

Lemma store_nth (df : DataFrame) (i : nat) (raw : list cell) :
  nth_error (df_rows df) i = Some raw ->
  let sch := _auto_map_columns (df_columns df) in
  nth_error (store df) i
  = Some {| _id := nth i (id_column df (id_col sch)) "";
            _dt := nth i (dt_column df sch) None;
            _cat := nth i (text_column df (cat_col sch)) "";
            _desc := nth i (text_column df (desc_col sch)) "";
            _lat := nth i (geo_column df (lat_col sch)) None;
            _lng := nth i (geo_column df (lng_col sch)) None;
            _city := nth i (text_column df (city_col sch)) "";
            _state := nth i (text_column df (state_col sch)) "" |}.
Proof.
  intros Hraw sch. unfold store, normalize. cbn [frame_rows].
  assert (Hlt : (i < List.length (df_rows df))%nat)
    by (apply nth_error_Some; congruence).
  erewrite map_nth_error; [reflexivity|].
  rewrite (nth_error_nth' _ O) by now rewrite length_seq.
  now rewrite seq_nth.
Qed.

Lemma text_column_nth (df : DataFrame) (col : option string) (i : nat) (raw : list cell) :
  nth_error (df_rows df) i = Some raw ->
  nth i (text_column df col) ""
  = match col with
    | Some c => if usable df col then str (row_cell df c raw) else ""
    | None => ""
    end.
Proof.
  intros Hraw. unfold text_column. destruct col as [c|]; [|apply nth_repeat_same].
  destruct (usable df (Some c)) eqn:Hu; [|apply nth_repeat_same].
  assert (Hin : In c (df_columns df)).
  { unfold usable in Hu. apply andb_true_iff in Hu. destruct Hu as [_ Hc].
    unfold has_column in Hc. apply existsb_exists in Hc.
    destruct Hc as [c' [Hin Heq]]. apply String.eqb_eq in Heq. now subst. }
  apply nth_of_nth_error.
  now rewrite (map_nth_error str i (getcol df c) (getcol_nth df c i raw Hin Hraw)).
Qed.

(** The derived text of a row: the string of its cell in the mapped
    column, and the empty string when the role is unmapped. *)
Lemma text_field_at (df : DataFrame) (t : text_role) (i : nat) (raw : list cell) :
  nth_error (df_rows df) i = Some raw ->
  exists r, nth_error (store df) i = Some r /\
    text_field t r
    = match schema_get (_auto_map_columns (df_columns df)) (role_of t) with
      | Some c => str (row_cell df c raw)
      | None => ""
      end.
Proof.
  intros Hraw. eexists. split; [apply (store_nth df i raw Hraw)|].
  destruct t; cbn [text_field role_of schema_get _cat _desc _city _state];
    rewrite (text_column_nth df _ i raw Hraw);
    match goal with
    | |- context [usable df ?col] => destruct col as [c|] eqn:Hcol; [|reflexivity]
    end.
  - now rewrite (proj2 (mapped_usable df Category c Hcol)).
  - now rewrite (proj2 (mapped_usable df Description c Hcol)).
  - now rewrite (proj2 (mapped_usable df City c Hcol)).
  - now rewrite (proj2 (mapped_usable df State c Hcol)).
Qed.

Lemma str_not_empty (c : cell) :
  (forall x, str_float x <> "") -> c <> CStr "" -> str c <> "".
Proof.
  intros Hf Hc. destruct c as [s|n|x|]; simpl.
  - intros Hs. apply Hc. now subst.
  - apply str_of_Z_not_empty.
  - apply Hf.
  - discriminate.
Qed.

Lemma row_cell_not_empty (df : DataFrame) (c : string) (i : nat) (raw : list cell) :
  no_empty_cells df -> nth_error (df_rows df) i = Some raw ->
  row_cell df c raw <> CStr "".
Proof.
  intros Hwf Hraw. unfold row_cell.
  destruct (index_of c (df_columns df)) as [j|]; [|discriminate].
  destruct (nth_in_or_default j raw CNaN) as [Hin|Hd]; [|rewrite Hd; discriminate].
  unfold no_empty_cells in Hwf. rewrite Forall_forall in Hwf.
  apply nth_error_In in Hraw. specialize (Hwf raw Hraw).
  rewrite Forall_forall in Hwf. now apply Hwf.
Qed.
End Load.

(** ** Grouped counts *)


Section CountKeys.
Context {K : Type} (eqb : K -> K -> bool).
Hypothesis eqb_eq : forall a b, eqb a b = true <-> a = b.

Lemma dict_get_incr (d : list (K * nat)) (k k' : K) :
  dict_get eqb (dict_incr eqb d k) k'
  = if eqb k k'
    then Some (match dict_get eqb d k with Some m => m | None => O end + 1)%nat
    else dict_get eqb d k'.
Proof. unfold dict_incr. now rewrite (dict_get_set eqb eqb_eq). Qed.

Lemma value_counts_get_from (keys : list K) (d : list (K * nat)) (k : K) :
  dict_get eqb (fold_left (dict_incr eqb) keys d) k
  = match count_key eqb k keys with
    | O => dict_get eqb d k
    | S n => Some (match dict_get eqb d k with Some m => m | None => O end + S n)%nat
    end.
Proof.
  unfold count_key. revert d.
  induction keys as [|k0 keys IH]; intros d; simpl; [reflexivity|].
  rewrite IH, dict_get_incr.
  destruct (eqb k0 k) eqn:E; simpl.
  - apply eqb_eq in E. subst k0.
    destruct (List.length (filter (fun x => eqb x k) keys)); f_equal; lia.
  - reflexivity.
Qed.

Lemma value_counts_get (keys : list K) (k : K) :
  dict_get eqb (value_counts eqb keys) k
  = match count_key eqb k keys with
    | O => None
    | S n => Some (S n)
    end.
Proof.
  unfold value_counts. rewrite value_counts_get_from. simpl.
  destruct (count_key eqb k keys); reflexivity.
Qed.

Lemma dict_get_In (d : list (K * nat)) (k : K) (n : nat) :
  dict_get eqb d k = Some n -> In (k, n) d.
Proof.
  induction d as [|[k0 n0] d IH]; simpl; [discriminate|].
  destruct (eqb k0 k) eqn:E.
  - apply eqb_eq in E. subst k0. intros [= ->]. now left.
  - intros Hg. right. now apply IH.
Qed.

Lemma In_dict_get (d : list (K * nat)) (k : K) (n : nat) :
  NoDup (map fst d) -> In (k, n) d -> dict_get eqb d k = Some n.
Proof.
  induction d as [|[k0 n0] d IH]; simpl; [intros _ []|].
  intros Hnd Hin. inversion Hnd as [|? ? Hnotin Hnd']; subst.
  destruct Hin as [Heq|Hin].
  - injection Heq as -> ->. now rewrite (eqb_refl_true eqb eqb_eq).
  - destruct (eqb k0 k) eqn:E.
    + apply eqb_eq in E. subst k0. exfalso. apply Hnotin.
      apply in_map_iff. now exists (k, n).
    + now apply IH.
Qed.

Lemma dict_set_keys_nodup (d : list (K * nat)) (k : K) (v : nat) :
  NoDup (map fst d) -> NoDup (map fst (dict_set eqb d k v)).
Proof.
  induction d as [|[k0 n0] d IH]; simpl; intros Hnd.
  - constructor; [intros [] | constructor].
  - inversion Hnd as [|? ? Hnotin Hnd']; subst.
    destruct (eqb k0 k) eqn:E; simpl; [exact Hnd|].
    constructor; [|now apply IH].
    intros Hin. apply in_map_iff in Hin. destruct Hin as [[k1 n1] [Hfst Hin]].
    simpl in Hfst. subst k1.
    assert (Hkeys : k0 = k \/ In k0 (map fst d)).
    { clear -Hin. induction d as [|[k2 n2] d IHd]; simpl in *.
      - destruct Hin as [[= -> _]|[]]. now left.
      - destruct (eqb k2 k); simpl in Hin.
        + destruct Hin as [[= -> _]|Hin]; right; [now left|].
          right. apply in_map_iff. now exists (k0, n1).
        + destruct Hin as [[= -> _]|Hin]; [right; now left|].
          destruct (IHd Hin) as [Hk|Hk]; [now left | right; now right]. }
    destruct Hkeys as [Hk|Hk]; [|contradiction].
    subst k0. rewrite (eqb_refl_true eqb eqb_eq) in E. discriminate.
Qed.

Lemma value_counts_nodup (keys : list K) :
  NoDup (map fst (value_counts eqb keys)).
Proof.
  unfold value_counts.
  assert (Hgen : forall d, NoDup (map fst d) ->
                           NoDup (map fst (fold_left (dict_incr eqb) keys d))).
  { induction keys as [|k keys IH]; intros d Hd; simpl; [exact Hd|].
    apply IH. unfold dict_incr. now apply dict_set_keys_nodup. }
  apply Hgen. constructor.
Qed.

(** A key is listed with its number of occurrences, and only when it
    occurs. *)
Lemma value_counts_In (keys : list K) (k : K) (n : nat) :
  In (k, n) (value_counts eqb keys)
  <-> n = count_key eqb k keys /\ (1 <= n)%nat.
Proof.
  split.
  - intros Hin. apply (In_dict_get _ _ _ (value_counts_nodup keys)) in Hin.
    rewrite value_counts_get in Hin.
    destruct (count_key eqb k keys); [discriminate|].
    injection Hin as <-. split; [reflexivity | lia].
  - intros [-> Hpos]. apply dict_get_In. rewrite value_counts_get.
    destruct (count_key eqb k keys); [lia | reflexivity].
Qed.
End CountKeys.


Lemma group_sizes_In (col : list string) (k : string) (n : nat) :
  In (KStr k, n) (group_sizes col)
  <-> n = count_key String.eqb k col /\ (1 <= n)%nat.
Proof.
  rewrite <- (value_counts_In String.eqb string_eqb_iff).
  unfold group_sizes. rewrite in_map_iff. split.
  - intros [[k' n'] [Heq Hin]]. simpl in Heq. injection Heq as -> ->.
    apply (Permutation_in _ (argsort_perm _ _ _)) in Hin.
    now apply (Permutation_in _ (isort_perm _ _)) in Hin.
  - intros Hin. exists (k, n). split; [reflexivity|].
    apply (Permutation_in _ (Permutation_sym (argsort_perm _ _ _))).
    now apply (Permutation_in _ (Permutation_sym (isort_perm _ _))).
Qed.


Section Stats.
Context `{Library}.

Lemma stats_res (df : list Row) (sd ed : option string) :
  dates_parse sd ed = true ->
  date_filter df sd ed (repeat true (List.length df))
  = Ok (map (in_range sd ed) df).
Proof.
  intros Hp. rewrite repeat_true_map, (date_filter_ok df sd ed _ Hp). reflexivity.
Qed.



Lemma store_length (df : DataFrame) :
  List.length (store df) = List.length (df_rows df).
Proof. unfold store, normalize. cbn [frame_rows]. now rewrite length_map, length_seq. Qed.

Lemma store_In (df : DataFrame) (r : Row) :
  In r (store df) ->
  exists i raw, nth_error (df_rows df) i = Some raw /\ nth_error (store df) i = Some r.
Proof.
  intros Hin. apply In_nth_error in Hin. destruct Hin as [i Hi].
  assert (Hlt : (i < List.length (df_rows df))%nat).
  { rewrite <- store_length. apply nth_error_Some. congruence. }
  apply nth_error_Some in Hlt.
  destruct (nth_error (df_rows df) i) as [raw|] eqn:Hraw; [|congruence].
  now exists i, raw.
Qed.

End Stats.



(** ** Missing text cells *)

Lemma count_key_pos {K : Type} (eqb : K -> K -> bool) (k : K) (keys : list K) :
  eqb k k = true -> In k keys -> (1 <= count_key eqb k keys)%nat.
Proof.
  intros Hrefl Hin. unfold count_key.
  induction keys as [|k0 keys IH]; simpl; [destruct Hin|].
  destruct Hin as [->|Hin].
  - rewrite Hrefl. simpl. lia.
  - destruct (eqb k0 k); simpl; [lia | now apply IH].
Qed.

Lemma lower_nan : lower "nan" = "nan".
Proof. reflexivity. Qed.

Section MissingText.
Context `{Library}.

Lemma stats_text (df : list Row) (t : text_role) :
  t <> TDescription ->
  stats_body df (by_name t) None None
  = Ok {| stats_by := by_name t; data := group_sizes (map (text_field t) df) |}.
Proof.
  intros Ht. unfold stats_body.
  rewrite (stats_res df None None eq_refl). cbn [rbind]. rewrite select_map.
  assert (Hall : filter (in_range None None) df = df).
  { apply filter_all. apply Forall_forall. intros r _. reflexivity. }
  rewrite Hall. destruct t; try reflexivity. now contradiction Ht.
Qed.

Lemma exact_filter_matches (t : text_role) (v : string) (r : Row) :
  t <> TDescription -> lower v = "nan" -> text_field t r = "nan" ->
  row_matches (exact_filter t v) r = true.
Proof.
  intros Ht Hv Hr. unfold row_matches, in_range.
  destruct t; cbn in *; try (now contradiction Ht);
    rewrite Hr, Hv; destruct (v =? "")%string; reflexivity.
Qed.

Lemma text_filter_matches (t : text_role) (v : string) (search : string -> bool) (r : Row) :
  t = TCategory \/ t = TDescription ->
  lower v = "nan" -> re_compile "nan" = Some search -> search "nan" = true ->
  text_field t r = "nan" ->
  filters_parse (text_filter v) = true /\ row_matches (text_filter v) r = true.
Proof.
  intros Ht Hv Hre Hs Hr. unfold filters_parse, row_matches, in_range, dates_parse.
  cbn. destruct (v =? "")%string; [split; reflexivity|].
  rewrite Hv, Hre. split; [reflexivity|].
  destruct Ht as [-> | ->]; cbn in Hr; rewrite Hr, lower_nan, Hs;
    rewrite ?orb_true_r; reflexivity.
Qed.

(** C10.  When the category, description, city or state role is mapped to
    a column and the cell of a row in that column is missing, the derived
    string of the row is "nan"; the row passes the exact-match filter of
    the role and the text search for "nan" in any letter case, and counts
    under the key "nan" in the statistics of the role; and, no cell of the
    frame being the empty string, a derived string is empty only when its
    role is unmapped. *)
Theorem C10_missing_text_is_nan (df : DataFrame) (t : text_role) (c : string)
    (i : nat) (raw : list cell) :
  schema_get (_auto_map_columns (df_columns df)) (role_of t) = Some c ->
  nth_error (df_rows df) i = Some raw ->
  row_cell df c raw = CNaN ->
  exists r,
    nth_error (store df) i = Some r /\
    text_field t r = "nan" /\
    (t <> TDescription -> forall v, lower v = "nan" ->
       exists filt, incidents_filt (store df) (exact_filter t v) = Ok filt /\
                    nth_error filt i = Some true) /\
    (t = TCategory \/ t = TDescription ->
     forall v search,
       lower v = "nan" -> re_compile "nan" = Some search -> search "nan" = true ->
       exists filt, incidents_filt (store df) (text_filter v) = Ok filt /\
                    nth_error filt i = Some true) /\
    (t <> TDescription ->
     exists out n, stats_body (store df) (by_name t) None None = Ok out /\
                   In (KStr "nan", n) (data out) /\ (1 <= n)%nat) /\
    (no_empty_cells df -> (forall x, str_float x <> "") ->
     forall t' j r',
       nth_error (store df) j = Some r' -> text_field t' r' = "" ->
       schema_get (_auto_map_columns (df_columns df)) (role_of t') = None).
Proof.
  intros Hmap Hraw Hcell.
  destruct (text_field_at df t i raw Hraw) as [r [Hr Hfield]].
  rewrite Hmap, Hcell in Hfield. cbn [str] in Hfield.
  exists r. split; [exact Hr|]. split; [exact Hfield|].
  split; [|split; [|split]].
  - intros Ht v Hv. eexists.
    split; [apply incidents_filt_ok; now destruct t|].
    erewrite map_nth_error; [|exact Hr].
    now rewrite exact_filter_matches.
  - intros Ht v search Hv Hre Hs.
    destruct (text_filter_matches t v search r Ht Hv Hre Hs Hfield) as [Hparse Hrow].
    eexists. split; [now apply incidents_filt_ok|].
    erewrite map_nth_error; [|exact Hr]. now rewrite Hrow.
  - intros Ht. eexists. eexists. split; [now apply stats_text|]. cbn [data].
    split; [apply group_sizes_In; split; [reflexivity|]|].
    + apply count_key_pos; [apply String.eqb_refl|].
      rewrite <- Hfield. apply in_map. now apply (nth_error_In _ i).
    + apply count_key_pos; [apply String.eqb_refl|].
      rewrite <- Hfield. apply in_map. now apply (nth_error_In _ i).
  - intros Hwf Hfloat t' j r' Hr' Hempty.
    destruct (store_In df r' (nth_error_In _ _ Hr')) as [j' [raw' [Hraw' Hj']]].
    destruct (text_field_at df t' j' raw' Hraw') as [r'' [Hr'' Hfield']].
    rewrite Hj' in Hr''. injection Hr'' as <-.
    destruct (schema_get (_auto_map_columns (df_columns df)) (role_of t')) as [c'|];
      [|reflexivity].
    exfalso. rewrite Hempty in Hfield'. symmetry in Hfield'. revert Hfield'.
    apply str_not_empty; [exact Hfloat|].
    now apply (row_cell_not_empty df c' j' raw').
Qed.
End MissingText.

Lemma C10_missing_text_is_nan_witness :
  schema_get (_auto_map_columns (df_columns scenario)) (role_of TCategory) = Some "Offense" /\
  nth_error (df_rows scenario) 2 = Some (nth 2 (df_rows scenario) []) /\
  row_cell scenario "Offense" (nth 2 (df_rows scenario) []) = CNaN /\
  exists r, nth_error (@store sample scenario) 2 = Some r /\ _cat r = "nan".
Proof.
  split; [reflexivity|]. split; [reflexivity|]. split; [reflexivity|].
  destruct (@C10_missing_text_is_nan sample scenario TCategory "Offense" 2%nat
              (nth 2 (df_rows scenario) []) eq_refl eq_refl eq_refl)
    as [r [Hr [Hnan _]]].
  exists r. split; [exact Hr | exact Hnan].
Defined.

(** ** Date Normalizer and the stored timestamps *)

Section Dates.
Context `{Library}.

(** The loop returns the parse of the first format, in list order, that
    accepts the string. *)
Lemma try_formats_first (s : string) (fs : list string) (d : datetime) :
  try_formats s fs = Some d ->
  exists pre f post,
    fs = (pre ++ f :: post)%list /\ strptime s f = Some d /\
    forall f', In f' pre -> strptime s f' = None.
Proof.
  induction fs as [|f0 fs IH]; simpl; [discriminate|].
  destruct (strptime s f0) as [d0|] eqn:E0.
  - intros [= ->]. exists [], f0, fs. split; [reflexivity|].
    split; [exact E0 | intros f' []].
  - intros Ht. destruct (IH Ht) as [pre [f [post [Hsplit [Hf Hpre]]]]].
    exists (f0 :: pre), f, post. split; [simpl; now rewrite Hsplit|].
    split; [exact Hf|]. intros f' [<-|Hin]; [exact E0 | now apply Hpre].
Qed.

Lemma try_formats_none (s : string) (fs : list string) :
  try_formats s fs = None <-> forall f, In f fs -> strptime s f = None.
Proof.
  induction fs as [|f0 fs IH]; simpl.
  - split; [intros _ f [] | reflexivity].
  - destruct (strptime s f0) as [d0|] eqn:E0.
    + split; [discriminate|]. intros Hall.
      specialize (Hall f0 (or_introl eq_refl)). congruence.
    + rewrite IH. split.
      * intros Hall f [<-|Hin]; [exact E0 | now apply Hall].
      * intros Hall f Hin. apply Hall. now right.
Qed.

(** On a value that is not null the program's per-row parser is the
    reference parse of section 4.2. *)
Lemma maybe_parse_date_is_reference (x : cell) :
  x <> CNaN -> _maybe_parse_date x = parse_4_2 x.
Proof.
  intros Hx. unfold _maybe_parse_date, parse_4_2, fmts.
  assert (Hna : cell_isna x = false) by (destruct x; [reflexivity ..|congruence]).
  rewrite Hna. cbn [try_formats].
  repeat match goal with
         | |- context [strptime ?s ?f] => destruct (strptime s f); [reflexivity|]
         end.
  destruct (to_datetime_coerce x) as [[d|]|]; reflexivity.
Qed.

Lemma dt_column_nth (df : DataFrame) (i : nat) (raw : list cell) :
  nth_error (df_rows df) i = Some raw ->
  nth i (dt_column df (_auto_map_columns (df_columns df))) None
  = match date_col (_auto_map_columns (df_columns df)) with
    | Some c =>
        if existsb (fun y => negb (cell_isna y)) (getcol df c) then
          match to_datetime_series (getcol df c) with
          | Some parse => parse (row_cell df c raw)
          | None => _maybe_parse_date (row_cell df c raw)
          end
        else None
    | None => None
    end.
Proof.
  intros Hraw. unfold dt_column.
  destruct (date_col (_auto_map_columns (df_columns df))) as [c|] eqn:Hcol;
    [|apply nth_repeat_same].
  destruct (mapped_usable df Date c Hcol) as [Hin Hu].
  assert (Ht : truthy (Some c) = true).
  { unfold usable in Hu. now apply andb_true_iff in Hu. }
  rewrite Ht. cbn [andb].
  destruct (existsb _ (getcol df c)); [|apply nth_repeat_same].
  pose proof (getcol_nth df c i raw Hin Hraw) as Hcell.
  destruct (to_datetime_series (getcol df c)) as [parse|];
    apply nth_of_nth_error; now apply map_nth_error.
Qed.

(** C4 (amended).  The stored timestamp of a row is absent when the date
    role is unmapped or the date column holds no value.  Otherwise, when
    the bulk parse of the column returns, it is what the bulk parse gives
    for the row, NaT included, with no per-row second attempt; and when the
    bulk parse raises, it is [_maybe_parse_date] of the raw value, which on
    a value that is not null is the reference parse of section 4.2: the
    nine formats in their order, the first success winning, then the
    permissive parser, else absent.  No case raises. *)
Theorem C4_stored_timestamp (df : DataFrame) (i : nat) (raw : list cell) :
  nth_error (df_rows df) i = Some raw ->
  exists r,
    nth_error (store df) i = Some r /\
    match date_col (_auto_map_columns (df_columns df)) with
    | None => _dt r = None
    | Some c =>
        let x := row_cell df c raw in
        if existsb (fun y => negb (cell_isna y)) (getcol df c) then
          match to_datetime_series (getcol df c) with
          | Some parse => _dt r = parse x
          | None => _dt r = _maybe_parse_date x /\ (x <> CNaN -> _dt r = parse_4_2 x)
          end
        else _dt r = None
    end.
Proof.
  intros Hraw. eexists. split; [apply (store_nth df i raw Hraw)|].
  cbn [_dt]. rewrite (dt_column_nth df i raw Hraw).
  destruct (date_col (_auto_map_columns (df_columns df))) as [c|]; [|reflexivity].
  cbv zeta. destruct (existsb _ (getcol df c)); [|reflexivity].
  destruct (to_datetime_series (getcol df c)) as [parse|]; [reflexivity|].
  split; [reflexivity | apply maybe_parse_date_is_reference].
Qed.
End Dates.

Lemma C4_stored_timestamp_witness :
  nth_error (df_rows day_first) 0 = Some [CInt 7; CStr "01-02-2020"] /\
  exists r, nth_error (@store sample day_first) 0 = Some r /\
            _dt r = Some (mkdate 2020 1 2).
Proof.
  split; [reflexivity|].
  destruct (@C4_stored_timestamp sample day_first 0%nat [CInt 7; CStr "01-02-2020"] eq_refl)
    as [r [Hr Hdt]].
  exists r. split; [exact Hr | exact Hdt].
Defined.

(** The bulk parse reads 01-02-2020 month first, the format list reads it
    day first. *)
Lemma C4_counterexample : ~ @spec_dt_is_reference_parse sample day_first.
Proof.
  intros Hspec.
  specialize (Hspec "date" O [CInt 7; CStr "01-02-2020"] _ eq_refl eq_refl eq_refl).
  vm_compute in Hspec. discriminate.
Qed.

(** A value that the bulk parse cannot read is left as NaT although the
    per-row parser reads it. *)
Lemma bulk_failure_is_not_retried :
  exists r, nth_error (@store sample scenario) 1 = Some r /\
            _dt r = None /\
            @parse_4_2 sample (CStr "03/02/2021") = Some (mkdate 2021 3 2).
Proof. eexists. split; [reflexivity|]. split; reflexivity. Qed.


(** ** The scenario of the specification *)

Lemma scenario_roles :
  let sch := _auto_map_columns (df_columns scenario) in
  lat_col sch = Some "Latitude" /\ lng_col sch = Some "Longitude" /\
  date_col sch = Some "Date" /\ cat_col sch = Some "Offense" /\
  city_col sch = Some "City" /\ id_col sch = None.
Proof. repeat split. Qed.

(** Without filters all three records are listed, newest first and the one
    without a timestamp last. *)
Lemma scenario_listing :
  exists page, @incidents_body sample (@store sample scenario) no_filters = Ok page /\
               total page = 3 /\ map item_id (items page) = ["2"; "0"; "1"].
Proof. eexists. split; [vm_compute; reflexivity|]. split; reflexivity. Qed.

(** The format list decides an ambiguous date: day first here. *)
Lemma day_first_by_format_order :
  @_maybe_parse_date sample (CStr "01-02-2020") = Some (mkdate 2020 2 1).
Proof. reflexivity. Qed.

(** * Further properties of the program *)

(** ** Schema Mapper: what a mapping looks like *)

Lemma candidates_disjoint (r1 r2 : role) (k : string) :
  In k (candidates r1) -> In k (candidates r2) -> r1 = r2.
Proof.
  intros H1 H2.
  destruct r1, r2; try reflexivity; exfalso; simpl in H1, H2;
    repeat (destruct H1 as [H1|H1];
            [subst k; repeat (destruct H2 as [H2|H2]; [discriminate H2|]); exact H2|]);
    exact H1.
Qed.

Lemma pick_lower_candidate (columns cands : list string) (c : string) :
  pick (columns_lower columns) cands = Some c ->
  In (lower c) cands /\ last_match columns (lower c) = Some c.
Proof.
  induction cands as [|k0 rest IH]; simpl; [discriminate|].
  rewrite columns_lower_get.
  destruct (last_match columns k0) as [c0|] eqn:Hm.
  - intros [= ->]. destruct (last_match_Some _ _ _ Hm) as [_ Hc].
    rewrite Hc. split; [now left | exact Hm].
  - intros Hp. destruct (IH Hp) as [Hin Hlast]. split; [now right | exact Hlast].
Qed.

(** X1.  No column is given to two roles: the candidate lists of different
    roles have no name in common. *)
Theorem roles_never_share_a_column (columns : list string) (r1 r2 : role) (c : string) :
  schema_get (_auto_map_columns columns) r1 = Some c ->
  schema_get (_auto_map_columns columns) r2 = Some c ->
  r1 = r2.
Proof.
  rewrite !schema_get_pick. intros H1 H2.
  apply pick_lower_candidate in H1, H2.
  apply (candidates_disjoint r1 r2 (lower c)); tauto.
Qed.

Lemma roles_never_share_a_column_witness :
  schema_get (_auto_map_columns ["Lat"; "type"]) Category = Some "type" /\
  forall r, schema_get (_auto_map_columns ["Lat"; "type"]) r = Some "type" -> Category = r.
Proof.
  split; [reflexivity|]. intros r Hr.
  apply (roles_never_share_a_column ["Lat"; "type"] Category r "type");
    [reflexivity | exact Hr].
Defined.

Lemma find_first_split {A : Type} (p : A -> bool) (l : list A) (x : A) :
  find p l = Some x ->
  exists a b, l = (a ++ x :: b)%list /\ forall y, In y a -> p y = false.
Proof.
  induction l as [|y l IH]; simpl; [discriminate|].
  destruct (p y) eqn:E.
  - intros [= ->]. exists [], l. split; [reflexivity | intros z []].
  - intros Hf. destruct (IH Hf) as [a [b [Hsplit Ha]]].
    exists (y :: a), b. split; [simpl; now rewrite Hsplit|].
    intros z [<-|Hz]; [exact E | now apply Ha].
Qed.

(** X2.  When several columns differ only by letter case, the role goes to the
    one that comes last in the header. *)
Theorem mapped_column_is_last_of_its_case_variants (columns : list string) (r : role)
    (c : string) :
  schema_get (_auto_map_columns columns) r = Some c ->
  exists pre post,
    columns = (pre ++ c :: post)%list /\
    forall c', In c' post -> lower c' <> lower c.
Proof.
  rewrite schema_get_pick. intros Hp.
  destruct (pick_lower_candidate _ _ _ Hp) as [_ Hlast].
  unfold last_match in Hlast.
  destruct (find_first_split _ _ _ Hlast) as [a [b [Hsplit Ha]]].
  exists (rev b), (rev a). split.
  - rewrite <- (rev_involutive columns), Hsplit, rev_app_distr. simpl.
    now rewrite <- app_assoc.
  - intros c' Hc' Heq. apply in_rev in Hc'. specialize (Ha c' Hc').
    simpl in Ha. apply String.eqb_neq in Ha. contradiction.
Qed.

Lemma mapped_column_is_last_of_its_case_variants_witness :
  schema_get (_auto_map_columns ["LAT"; "x"; "Lat"]) Latitude = Some "Lat" /\
  exists pre post,
    ["LAT"; "x"; "Lat"] = (pre ++ "Lat" :: post)%list /\
    forall c', In c' post -> lower c' <> lower "Lat".
Proof.
  split; [reflexivity|].
  apply (mapped_column_is_last_of_its_case_variants ["LAT"; "x"; "Lat"] Latitude "Lat").
  reflexivity.
Defined.

(** ** Record Store: shape of the store *)

Lemma to_uint_not_nil (n : nat) : Nat.to_uint n <> Decimal.Nil.
Proof.
  rewrite <- (DecimalNat.Unsigned.of_to n) at 1.
  rewrite DecimalNat.Unsigned.to_of. apply DecimalFacts.unorm_nonnil.
Qed.

Lemma str_of_nat_injective (n m : nat) : str_of_nat n = str_of_nat m -> n = m.
Proof.
  unfold str_of_nat. intros Heq.
  apply (f_equal NilZero.uint_of_string) in Heq.
  rewrite !NilZero.usu in Heq by apply to_uint_not_nil.
  injection Heq as Heq. now apply DecimalNat.Unsigned.to_uint_inj.
Qed.

Lemma nth_map_seq {A : Type} (f : nat -> A) (n i : nat) (d : A) :
  (i < n)%nat -> nth i (map f (seq 0 n)) d = f i.
Proof.
  intros Hlt. rewrite (nth_indep _ d (f O)) by now rewrite length_map, length_seq.
  rewrite map_nth, seq_nth by exact Hlt. reflexivity.
Qed.

Section StoreShape.
Context `{Library}.

Lemma id_column_nth (df : DataFrame) (i : nat) (raw : list cell) :
  nth_error (df_rows df) i = Some raw ->
  nth i (id_column df (id_col (_auto_map_columns (df_columns df)))) ""
  = match id_col (_auto_map_columns (df_columns df)) with
    | Some c => str (row_cell df c raw)
    | None => str_of_nat i
    end.
Proof.
  intros Hraw. unfold id_column.
  assert (Hlt : (i < List.length (df_rows df))%nat)
    by (apply nth_error_Some; congruence).
  destruct (id_col (_auto_map_columns (df_columns df))) as [c|] eqn:Hcol;
    [|now apply nth_map_seq].
  destruct (mapped_usable df Identifier c Hcol) as [Hin Hu]. rewrite Hu.
  apply nth_of_nth_error.
  exact (map_nth_error str i (getcol df c) (getcol_nth df c i raw Hin Hraw)).
Qed.

(** X3.  The store has one record per raw row, in row order.  The id of a
    record is the string of its cell in the id column or, without an id
    column, its row index in decimal; in that case no two records share an
    id. *)
Theorem store_rows_and_ids (df : DataFrame) :
  List.length (store df) = List.length (df_rows df) /\
  (forall i raw, nth_error (df_rows df) i = Some raw ->
     exists r, nth_error (store df) i = Some r /\
               _id r = match id_col (_auto_map_columns (df_columns df)) with
                       | Some c => str (row_cell df c raw)
                       | None => str_of_nat i
                       end) /\
  (id_col (_auto_map_columns (df_columns df)) = None ->
   NoDup (map _id (store df))).
Proof.
  split; [apply store_length|]. split.
  - intros i raw Hraw. eexists. split; [apply (store_nth df i raw Hraw)|].
    cbn [_id]. now apply id_column_nth.
  - intros Hnone.
    assert (Hids : map _id (store df)
                   = map str_of_nat (seq 0 (List.length (df_rows df)))).
    { unfold store, normalize. cbn [frame_rows]. rewrite map_map. cbn [_id].
      apply map_ext_in. intros i Hi. apply in_seq in Hi.
      unfold id_column. rewrite Hnone. apply nth_map_seq. lia. }
    rewrite Hids. apply Finite.Injective_map_NoDup; [|apply seq_NoDup].
    intros n m. apply str_of_nat_injective.
Qed.



Lemma geo_column_unmapped (df : DataFrame) (r : Row) :
  In r (store df) ->
  (lat_col (_auto_map_columns (df_columns df)) = None -> _lat r = None) /\
  (lng_col (_auto_map_columns (df_columns df)) = None -> _lng r = None).
Proof.
  intros Hin. destruct (store_In df r Hin) as [i [raw [Hraw Hr]]].
  pose proof (store_nth df i raw Hraw) as Hs. cbv zeta in Hs.
  assert (Hla : _lat r = nth i (geo_column df
                  (lat_col (_auto_map_columns (df_columns df)))) None)
    by (rewrite Hs in Hr; injection Hr as <-; reflexivity).
  assert (Hlo : _lng r = nth i (geo_column df
                  (lng_col (_auto_map_columns (df_columns df)))) None)
    by (rewrite Hs in Hr; injection Hr as <-; reflexivity).
  rewrite Hla, Hlo.
  split; intros Hnone; rewrite Hnone; apply nth_repeat_same.
Qed.

(** X5.  A file without any latitude column, or without any longitude column,
    still loads, but both geo views answer 400 on it. *)
Theorem geo_views_need_both_columns (w : World) (g : Globals) (df : DataFrame) (bins : Z) :
  _df g = None -> csv_file w = Some df ->
  (forall k, In k (candidates Latitude) -> ~ matches (df_columns df) k) \/
  (forall k, In k (candidates Longitude) -> ~ matches (df_columns df) k) ->
  geojson w g = (Raise no_geo, loaded df) /\
  heatmap w bins g = (Raise no_geo, loaded df).
Proof.
  intros Hdf Hfile Hmiss.
  assert (Hguard : Forall (fun r => _lat r = None) (store df)
                   \/ Forall (fun r => _lng r = None) (store df)).
  { destruct Hmiss as [Hm|Hm]; [left|right]; apply Forall_forall; intros r Hr;
      apply pick_None in Hm;
      destruct (geo_column_unmapped df r Hr) as [Hla Hlo]; auto. }
  unfold geojson, heatmap, bind, not_found_as_404, lift.
  rewrite (get_df_builds w g df Hdf Hfile).
  change (frame_rows (normalize df (_auto_map_columns (df_columns df))))
    with (store df).
  split.
  - now rewrite (proj2 (geojson_raises_iff _) Hguard).
  - now rewrite (proj2 (heatmap_raises_iff _ bins) Hguard).
Qed.
End StoreShape.

Lemma store_rows_and_ids_witness :
  id_col (_auto_map_columns (df_columns scenario)) = None /\
  NoDup (map _id (@store sample scenario)).
Proof.
  split; [reflexivity|].
  apply (@store_rows_and_ids sample scenario). reflexivity.
Defined.


Lemma geo_views_need_both_columns_witness :
  _df initial = None /\ csv_file (at_path (Some no_geo_columns)) = Some no_geo_columns /\
  @geojson sample (at_path (Some no_geo_columns)) initial
  = (Raise no_geo, @loaded sample no_geo_columns).
Proof.
  split; [reflexivity|]. split; [reflexivity|].
  apply (@geo_views_need_both_columns sample (at_path (Some no_geo_columns)) initial
           no_geo_columns 50 eq_refl eq_refl).
  left. intros k Hk [c [Hc Hlow]]. simpl in Hk, Hc.
  destruct Hc as [<-|[<-|[]]]; simpl in Hlow; subst k;
    repeat (destruct Hk as [Hk|Hk]; [discriminate Hk|]); exact Hk.
Defined.

(** ** Heatmap: the cell centres *)




(** ** Listing: what a page holds *)

Lemma sort_by_perm (s : string) (res : list Row) : Permutation (sort_by s res) res.
Proof.
  unfold sort_by. destruct (s =? "date")%string; [apply sort_values_dt_perm|].
  destruct (s =? "-date")%string; [apply sort_values_dt_perm | apply Permutation_refl].
Qed.

Lemma iloc_In {A : Type} (res : list A) (offset limit : Z) (x : A) :
  In x (iloc res offset limit) -> In x res.
Proof.
  unfold iloc. intros Hin.
  rewrite <- (firstn_skipn (Z.to_nat offset) res). apply in_or_app. right.
  rewrite <- (firstn_skipn (Z.to_nat limit) (skipn (Z.to_nat offset) res)).
  apply in_or_app. now left.
Qed.

Lemma iloc_all {A : Type} (res : list A) (limit : Z) :
  Z.of_nat (List.length res) <= limit -> iloc res 0 limit = res.
Proof.
  intros Hl. unfold iloc. simpl. apply firstn_all2. lia.
Qed.




Section Pages.
Context `{Library}.

(** X7.  Every item of a page is the projection of a record of the store that
    passes all active filters; and a page that starts at offset 0 with a
    limit that reaches the total holds all those records, each once. *)
Theorem page_holds_matching_records (df : list Row) (p : IncidentParams) (page : Page) :
  filters_parse p = true ->
  incidents_body df p = Ok page ->
  (forall it, In it (items page) ->
     exists r, In r df /\ row_matches p r = true /\ it = project r) /\
  (offset p = 0 -> total page <= limit p ->
   Permutation (items page) (map project (filter (row_matches p) df))).
Proof.
  intros Hp. rewrite (incidents_body_ok df p Hp). intros [= <-]. cbn [items total].
  split.
  - intros it Hit. apply in_map_iff in Hit. destruct Hit as [r [<- Hr]].
    apply iloc_In in Hr. apply (Permutation_in _ (sort_by_perm _ _)) in Hr.
    apply filter_In in Hr. destruct Hr as [Hin Hm]. now exists r.
  - intros -> Hl. rewrite iloc_all by exact Hl.
    apply Permutation_map, sort_by_perm.
Qed.

End Pages.

Lemma page_holds_matching_records_witness :
  @filters_parse sample (exact_filter TCategory "theft") = true /\
  exists page,
    @incidents_body sample (@store sample scenario) (exact_filter TCategory "theft")
    = Ok page /\
    forall it, In it (items page) -> item_category it = Some "THEFT".
Proof.
  split; [reflexivity|]. eexists. split; [vm_compute; reflexivity|].
  intros it Hit.
  destruct (@page_holds_matching_records sample (@store sample scenario)
              (exact_filter TCategory "theft") _ eq_refl eq_refl) as [Hall _].
  destruct (Hall it Hit) as [r [Hr [Hm ->]]].
  simpl in Hit. destruct Hit as [<-|[]]. reflexivity.
Defined.


(** ** Listing: order of a page *)

Lemma StronglySorted_app {A : Type} (R : A -> A -> Prop) (l1 l2 : list A) :
  StronglySorted R l1 -> StronglySorted R l2 ->
  (forall x y, In x l1 -> In y l2 -> R x y) ->
  StronglySorted R (l1 ++ l2).
Proof.
  induction l1 as [|a l1 IH]; intros H1 H2 Hx; simpl; [exact H2|].
  inversion H1 as [|? ? Hs Ha]; subst. constructor.
  - apply IH; auto. intros x y Hin. apply Hx. now right.
  - apply Forall_app. split; [exact Ha|].
    apply Forall_forall. intros y Hy. apply Hx; [now left | exact Hy].
Qed.

Lemma StronglySorted_rev {A : Type} (R : A -> A -> Prop) (l : list A) :
  StronglySorted R l -> StronglySorted (fun a b => R b a) (rev l).
Proof.
  induction 1 as [|a l Hs IH Ha]; simpl; [constructor|].
  apply StronglySorted_app; [exact IH | repeat constructor|].
  intros x y Hin [<-|[]]. rewrite Forall_forall in Ha. apply Ha. now apply in_rev.
Qed.

Lemma StronglySorted_weaken {A : Type} (R R' : A -> A -> Prop) (l : list A) :
  (forall x y, In x l -> In y l -> R x y -> R' x y) ->
  StronglySorted R l -> StronglySorted R' l.
Proof.
  intros Himp Hs. induction Hs as [|a l Hs IH Ha]; constructor.
  - apply IH. intros x y Hin Hy. apply Himp; now right.
  - rewrite Forall_forall in *. intros y Hy.
    apply Himp; [now left | now right | now apply Ha].
Qed.

Lemma StronglySorted_skipn {A : Type} (R : A -> A -> Prop) (n : nat) (l : list A) :
  StronglySorted R l -> StronglySorted R (skipn n l).
Proof.
  revert l. induction n as [|n IH]; intros l Hs; [exact Hs|].
  destruct l as [|a l]; [constructor|]. simpl. apply IH.
  now inversion Hs.
Qed.

Lemma StronglySorted_firstn {A : Type} (R : A -> A -> Prop) (n : nat) (l : list A) :
  StronglySorted R l -> StronglySorted R (firstn n l).
Proof.
  revert l. induction n as [|n IH]; intros l Hs; [constructor|].
  destruct l as [|a l]; [constructor|]. simpl.
  inversion Hs as [|? ? Hsl Ha]; subst. constructor; [now apply IH|].
  rewrite Forall_forall in *. intros y Hy. apply Ha.
  rewrite <- (firstn_skipn n l). apply in_or_app. now left.
Qed.

Lemma present_keys (l : list Row) (x : option datetime) :
  Forall (fun r => has_dt r = true) l -> In x (map _dt l) -> exists d, x = Some d.
Proof.
  intros Hall Hin. apply in_map_iff in Hin. destruct Hin as [r [<- Hr]].
  rewrite Forall_forall in Hall. specialize (Hall r Hr). unfold has_dt in Hall.
  destruct (_dt r) as [d|]; [now exists d | discriminate].
Qed.

Lemma absent_keys_sorted (R : option datetime -> option datetime -> Prop) (l : list Row) :
  R None None -> Forall (fun r => has_dt r = false) l -> StronglySorted R (map _dt l).
Proof.
  intros HR. induction 1 as [|r l Hr Hl IH]; simpl; [constructor|].
  unfold has_dt in Hr. destruct (_dt r) eqn:E; [discriminate|].
  constructor; [exact IH|]. apply Forall_forall. intros y Hy.
  apply in_map_iff in Hy. destruct Hy as [r' [<- Hr']].
  rewrite Forall_forall in Hl. specialize (Hl r' Hr'). unfold has_dt in Hl.
  destruct (_dt r'); [discriminate | exact HR].
Qed.

Lemma sort_values_dt_sorted (ascending : bool) (res : list Row) :
  StronglySorted (if ascending then date_before else date_after)
    (map _dt (sort_values_dt ascending res)).
Proof.
  unfold sort_values_dt. rewrite map_app.
  assert (Habs : Forall (fun r => has_dt r = false)
                   (filter (fun r => negb (has_dt r)) res)).
  { apply Forall_forall. intros r Hr. apply filter_In in Hr.
    destruct Hr as [_ Hr]. now apply negb_true_iff in Hr. }
  pose proof (sorted_part_has_dt ascending res) as Hpres.
  apply StronglySorted_app.
  - unfold argsort in *. destruct ascending.
    + apply (StronglySorted_weaken key_le); [|apply isort_dt_sorted, filter_Forall].
      intros x y Hx Hy.
      destruct (present_keys _ x Hpres Hx) as [dx ->].
      destruct (present_keys _ y Hpres Hy) as [dy ->]. auto.
    + rewrite map_rev.
      assert (Hrev : Forall (fun r => has_dt r = true) (rev (filter has_dt res)))
        by (apply (Permutation_Forall (Permutation_rev _)), filter_Forall).
      apply (StronglySorted_weaken (fun a b => key_le b a));
        [|apply StronglySorted_rev, isort_dt_sorted, Hrev].
      rewrite <- map_rev. intros x y Hx Hy.
      destruct (present_keys _ x Hpres Hx) as [dx ->].
      destruct (present_keys _ y Hpres Hy) as [dy ->]. auto.
  - destruct ascending; now apply absent_keys_sorted.
  - intros x y Hx Hy. destruct (present_keys _ x Hpres Hx) as [dx ->].
    apply in_map_iff in Hy. destruct Hy as [r [<- Hr]].
    rewrite Forall_forall in Habs. specialize (Habs r Hr). unfold has_dt in Habs.
    destruct (_dt r); [discriminate|]. now destruct ascending.
Qed.

Lemma iloc_map {A B : Type} (f : A -> B) (l : list A) (offset limit : Z) :
  map f (iloc l offset limit) = iloc (map f l) offset limit.
Proof. unfold iloc. now rewrite skipn_map, firstn_map. Qed.

Section PageOrder.
Context `{Library}.

(** X9.  A page sorted by "date" lists its dates in ascending order and one
    sorted by "-date" in descending order, the items without a date last
    in both; with any other sort value the page keeps the row order of the
    store. *)
Theorem page_order (df : list Row) (p : IncidentParams) (page : Page) :
  filters_parse p = true ->
  incidents_body df p = Ok page ->
  (sort p = "date" -> StronglySorted date_before (map item_date (items page))) /\
  (sort p = "-date" -> StronglySorted date_after (map item_date (items page))) /\
  (sort p <> "date" -> sort p <> "-date" ->
   items page
   = map project (iloc (filter (row_matches p) df) (offset p) (limit p))).
Proof.
  intros Hp. rewrite (incidents_body_ok df p Hp). intros [= <-]. cbn [items].
  assert (Hdates : forall l : list Row, map item_date (map project l) = map _dt l).
  { intros l. rewrite map_map. reflexivity. }
  rewrite Hdates, iloc_map. unfold iloc, sort_by.
  split; [|split].
  - intros ->. cbn. apply StronglySorted_firstn, StronglySorted_skipn.
    apply (sort_values_dt_sorted true).
  - intros ->. cbn. apply StronglySorted_firstn, StronglySorted_skipn.
    apply (sort_values_dt_sorted false).
  - intros H1 H2. apply String.eqb_neq in H1, H2. now rewrite H1, H2.
Qed.
End PageOrder.

Lemma page_order_witness :
  @filters_parse sample no_filters = true /\
  exists page,
    @incidents_body sample (@store sample scenario) no_filters = Ok page /\
    StronglySorted date_after (map item_date (items page)).
Proof.
  split; [reflexivity|]. eexists. split; [vm_compute; reflexivity|].
  apply (@page_order sample (@store sample scenario) no_filters _ eq_refl eq_refl).
  reflexivity.
Defined.

(** ** Errors of the statistics *)

Section Errors.
Context `{Library}.




End Errors.

